(** * Server_leis: the law-text scraping backend

    A shallow embedding of the three revisions of the Express server found in
    the repository:

    - [Part000]: the current revision (unnamed source file): windows-1252
      decoding, axios-retry, [img, script, style, link] removal, upsert on a
      UNIQUE [law_type], a 2 s pause between catalogue entries;
    - [ServerA]: first document of [scraping-backend/server.js]: same store and
      normalizer (without [link]), no retry;
    - [ServerB]: second document of [scraping-backend/server.js]: no UNIQUE
      constraint, plain INSERT, only [img] removed, entities decoded on read,
      [forEach] without [await].

    The libraries the program calls (better-sqlite3, cheerio, he, axios,
    axios-retry, express) are modelled by the small modules that come first;
    what cannot be known from the program (the HTML parser, the charset
    decoder, the entity tables, the network) is a parameter. *)

From Stdlib Require Import List String Ascii Bool Arith ZArith Lia.
From Stdlib Require Import Numbers.DecimalString.
From Stdlib Require Import Sorting.Permutation.
Import ListNotations.

Local Open Scope list_scope.
Local Open Scope string_scope.

Set Warnings "-register-all,-abstract-large-number".

(* ------------------------------------------------------------------------- *)
(** * Strings *)

Module Str.

(** [includes needle s]: JavaScript's [s.includes(needle)]. *)
Fixpoint includes (needle s : string) : bool :=
  if String.prefix needle s then true
  else match s with
       | EmptyString => false
       | String _ s' => includes needle s'
       end.

(** Decimal rendering of a number inside a template literal. *)
Definition of_nat (n : nat) : string := NilEmpty.string_of_uint (Nat.to_uint n).

End Str.

(* ------------------------------------------------------------------------- *)
(** * The [laws] table (better-sqlite3)

    [CREATE TABLE laws (id INTEGER PRIMARY KEY AUTOINCREMENT, law_type TEXT
    [UNIQUE], content TEXT, last_updated DATETIME DEFAULT CURRENT_TIMESTAMP)].
    A table is the list of its rows in rowid order.  [CURRENT_TIMESTAMP] is an
    input of every statement that uses it: the clock belongs to the
    environment, and nothing is assumed about it (SQLite renders it to the
    second, so two writes may carry the same value). *)

Module Sqlite.

Record row := mkRow
  { id : nat;
    law_type : string;
    content : string;
    last_updated : Z }.

Definition table := list row.

Definition is_type (ty : string) (r : row) : bool := law_type r =? ty.

(** [WHERE law_type = ?] *)
Definition rows_for (ty : string) (t : table) : table := filter (is_type ty) t.

(** The UNIQUE constraint on [law_type]. *)
Definition unique_law_type (t : table) : Prop := NoDup (map law_type t).

(** AUTOINCREMENT: one more than the largest rowid (rows are never deleted). *)
Definition next_id (t : table) : nat := S (fold_right Nat.max 0 (map id t)).

(** [DO UPDATE SET content = excluded.content, last_updated =
    CURRENT_TIMESTAMP] on the row that raised the conflict. *)
Fixpoint do_update (now : Z) (ty c : string) (t : table) : table :=
  match t with
  | [] => []
  | r :: t' =>
      if is_type ty r
      then mkRow (id r) (law_type r) c now :: t'
      else r :: do_update now ty c t'
  end.

(** [INSERT INTO laws (law_type, content, last_updated) VALUES (?, ?,
    CURRENT_TIMESTAMP)] when nothing conflicts; also the whole of the plain
    [INSERT INTO laws (law_type, content) VALUES (?, ?)], whose
    [last_updated] is the column default. *)
Definition insert (now : Z) (ty c : string) (t : table) : table :=
  (t ++ [mkRow (next_id t) ty c now])%list.

(** [INSERT ... ON CONFLICT(law_type) DO UPDATE ...] on the table with the
    UNIQUE constraint. *)
Definition upsert (now : Z) (ty c : string) (t : table) : table :=
  if existsb (is_type ty) t then do_update now ty c t else insert now ty c t.

(** [ORDER BY last_updated DESC LIMIT 1] over the selected rows.  SQL leaves
    the choice among rows with equal [last_updated] open; this picks the one
    with the smallest rowid, and [latest_spec] states what does not depend on
    that choice. *)
Fixpoint latest (rs : list row) : option row :=
  match rs with
  | [] => None
  | r :: rs' =>
      match latest rs' with
      | None => Some r
      | Some m => if (last_updated r <? last_updated m)%Z then Some m else Some r
      end
  end.

(** [SELECT content FROM laws WHERE law_type = ? ORDER BY last_updated DESC
    LIMIT 1], run with [.get(lawType)]: the row, or [undefined]. *)
Definition select_latest (ty : string) (t : table) : option row :=
  latest (rows_for ty t).

(** A write: the statement's bound parameters and the clock it saw. *)
Record write := mkWrite { w_now : Z; w_type : string; w_content : string }.

Definition apply_upsert (t : table) (w : write) : table :=
  upsert (w_now w) (w_type w) (w_content w) t.

(** The content of the last write to [ty] in a history, if any. *)
Fixpoint last_written (ty : string) (ws : list write) : option string :=
  match ws with
  | [] => None
  | w :: ws' =>
      match last_written ty ws' with
      | Some c => Some c
      | None => if w_type w =? ty then Some (w_content w) else None
      end
  end.

(** What identifies a row: its rowid and its type. *)
Definition key (r : row) : nat * string := (id r, law_type r).

(** The rows that writes of new types add, the first with rowid [k]. *)
Fixpoint fresh_rows (k : nat) (ws : list write) : table :=
  match ws with
  | [] => []
  | w :: ws' => mkRow k (w_type w) (w_content w) (w_now w) :: fresh_rows (S k) ws'
  end.

End Sqlite.

(* ------------------------------------------------------------------------- *)
(** * The document tree (cheerio)

    What [cheerio.load] returns and [$(...)] selects from: elements with a
    lower-case tag name, their attributes in order and their children; text;
    comments.  The selectors the program uses are tag names only. *)

Module Dom.

Inductive node : Type :=
| Element (name : string) (attribs : list (string * string)) (children : list node)
| Text (data : string)
| Comment (data : string).

Definition document := list node.

(** [$('t1, t2, ...')] matches the elements whose tag is one of the [ti]. *)
Definition matches (sel : list string) (n : node) : bool :=
  match n with
  | Element name _ _ => existsb (String.eqb name) sel
  | _ => false
  end.

(** [$(sel).remove()]: every matching element leaves the tree, with its
    subtree. *)
Fixpoint remove_node (sel : list string) (n : node) : list node :=
  match n with
  | Element name attribs children =>
      if existsb (String.eqb name) sel then []
      else [Element name attribs (flat_map (remove_node sel) children)]
  | Text data => [Text data]
  | Comment data => [Comment data]
  end.

Definition remove (sel : list string) (d : document) : document :=
  flat_map (remove_node sel) d.

Definition drop_attr (attr : string) (attribs : list (string * string)) :=
  filter (fun kv => negb (fst kv =? attr)) attribs.

(** [$(tag).removeAttr(attr)]: the attribute is deleted from every element
    with that tag; the element and its children stay. *)
Fixpoint removeAttr_node (tag attr : string) (n : node) : node :=
  match n with
  | Element name attribs children =>
      Element name
        (if name =? tag then drop_attr attr attribs else attribs)
        (map (removeAttr_node tag attr) children)
  | Text data => Text data
  | Comment data => Comment data
  end.

Definition removeAttr (tag attr : string) (d : document) : document :=
  map (removeAttr_node tag attr) d.

(** ** Serialization, [$.html()] *)

Definition void_elements : list string :=
  ["area"; "base"; "basefont"; "bgsound"; "br"; "col"; "embed"; "frame"; "hr";
   "img"; "input"; "keygen"; "link"; "meta"; "param"; "source"; "track"; "wbr"].

(** Elements whose text children are written as they are. *)
Definition raw_text_elements : list string :=
  ["style"; "script"; "xmp"; "iframe"; "noembed"; "noframes"; "plaintext";
   "noscript"].

Definition is_void (name : string) : bool := existsb (String.eqb name) void_elements.
Definition is_raw (name : string) : bool := existsb (String.eqb name) raw_text_elements.

(** U+00A0 in UTF-8. *)
Definition nbsp : string := String "194" (String "160" "").

(** Escaping of text ([attr = false]: [&], [<], [>], no-break space) and of
    attribute values ([attr = true]: [&], the double quote, no-break space). *)
Fixpoint escape (attr : bool) (s : string) : string :=
  match s with
  | EmptyString => ""
  | String c s' =>
      if (c =? "&")%char then "&amp;" ++ escape attr s'
      else if (c =? "194")%char then
        match s' with
        | String d rest =>
            if (d =? "160")%char then "&nbsp;" ++ escape attr rest
            else String c (escape attr s')
        | EmptyString => String c ""
        end
      else if attr then
        if (c =? "034")%char then "&quot;" ++ escape attr s'
        else String c (escape attr s')
      else if (c =? "<")%char then "&lt;" ++ escape attr s'
      else if (c =? ">")%char then "&gt;" ++ escape attr s'
      else String c (escape attr s')
  end.

(** The double quote. *)
Definition dquote : string := String "034" "".

Definition html_attr (kv : string * string) : string :=
  " " ++ fst kv ++ "=" ++ dquote ++ escape true (snd kv) ++ dquote.

Definition html_attrs (attribs : list (string * string)) : string :=
  String.concat "" (map html_attr attribs).

(** [raw] tells whether the parent is a raw-text element. *)
Fixpoint html_node (raw : bool) (n : node) : string :=
  match n with
  | Element name attribs children =>
      "<" ++ name ++ html_attrs attribs ++ ">" ++
      (if is_void name then ""
       else String.concat "" (map (html_node (is_raw name)) children)
            ++ "</" ++ name ++ ">")
  | Text data => if raw then data else escape false data
  | Comment data => "<!--" ++ data ++ "-->"
  end.

Definition html (d : document) : string :=
  String.concat "" (map (html_node false) d).

(** ** Observations on a tree *)

(** Some element of the tree carries the tag [name]. *)
Fixpoint has_element_node (name : string) (n : node) : bool :=
  match n with
  | Element nm _ children =>
      (nm =? name) || existsb (has_element_node name) children
  | _ => false
  end.

Definition has_element (name : string) (d : document) : bool :=
  existsb (has_element_node name) d.

(** Some element of the tree with tag [tag] carries the attribute [attr]. *)
Fixpoint has_attr_node (tag attr : string) (n : node) : bool :=
  match n with
  | Element nm attribs children =>
      ((nm =? tag) && existsb (fun kv => fst kv =? attr) attribs)
      || existsb (has_attr_node tag attr) children
  | _ => false
  end.

Definition has_attr (tag attr : string) (d : document) : bool :=
  existsb (has_attr_node tag attr) d.

(** [occurs blocked r0 r n ns]: the node [n] is in the forest [ns] (whose
    parent is raw-text iff [r0]), under no element whose tag is [blocked];
    [r] tells whether the parent of [n] is a raw-text element. *)
Inductive occurs (blocked : string -> bool) : bool -> bool -> node -> list node -> Prop :=
| occurs_here r n ns : In n ns -> occurs blocked r r n ns
| occurs_below r0 r n ns name attribs children :
    In (Element name attribs children) ns ->
    blocked name = false ->
    occurs blocked (is_raw name) r n children ->
    occurs blocked r0 r n ns.

(** A node that stays, after the two mutations. *)
Definition kept (sel : list string) (tag attr : string) (n : node) : node :=
  removeAttr_node tag attr
    match n with
    | Element name attribs children => Element name attribs (remove sel children)
    | other => other
    end.

(** Induction on a tree, with the hypothesis for every child. *)
Fixpoint node_induction (P : node -> Prop)
  (element : forall name attribs children,
      Forall P children -> P (Element name attribs children))
  (text : forall data, P (Text data))
  (comment : forall data, P (Comment data))
  (n : node) : P n :=
  match n with
  | Element name attribs children =>
      element name attribs children
        ((fix all (l : list node) : Forall P l :=
            match l with
            | [] => Forall_nil P
            | x :: l' =>
                Forall_cons x (node_induction P element text comment x) (all l')
            end) children)
  | Text data => text data
  | Comment data => comment data
  end.

(** ** The tree written out without escaping

    The same markup as [html_node], with text and attribute values as they
    are. *)

Definition literal_attr (kv : string * string) : string :=
  " " ++ fst kv ++ "=" ++ dquote ++ snd kv ++ dquote.

Fixpoint literal_node (n : node) : string :=
  match n with
  | Element name attribs children =>
      "<" ++ name ++ String.concat "" (map literal_attr attribs) ++ ">" ++
      (if is_void name then ""
       else String.concat "" (map literal_node children) ++ "</" ++ name ++ ">")
  | Text data => data
  | Comment data => "<!--" ++ data ++ "-->"
  end.

Definition literal (d : document) : string :=
  String.concat "" (map literal_node d).

(** No [&] in what the serializer writes as it is: tag and attribute
    names, comments, and the text of raw-text elements. *)
Fixpoint amp_free (raw : bool) (n : node) : bool :=
  match n with
  | Element name attribs children =>
      negb (Str.includes "&" name)
      && forallb (fun kv => negb (Str.includes "&" (fst kv))) attribs
      && forallb (amp_free (is_raw name)) children
  | Text data => if raw then negb (Str.includes "&" data) else true
  | Comment data => negb (Str.includes "&" data)
  end.

End Dom.

(* ------------------------------------------------------------------------- *)
(** * Entity decoding ([he.decode], default options)

    The decoder replaces, at every [&], the first alternative that applies:
    a named reference closed by [;]; a legacy named reference that is not
    followed by [;]; a decimal or hexadecimal reference with or without [;].
    Anything else stays as it is.  The reference tables of the library are a
    parameter. *)

Module He.

Record tables := mkTables
  { decodeMap : list (string * string);        (* name -> symbol, closed by ; *)
    decodeMapLegacy : list (string * string);  (* in the order the library tries them *)
    decodeMapNumeric : list (N * string) }.    (* code points it overrides *)

Section Decode.

Variable tb : tables.

Definition named (name : string) : option string :=
  option_map snd (find (fun kv => fst kv =? name) (decodeMap tb)).

Definition is_digit (c : ascii) : bool :=
  let n := nat_of_ascii c in ((48 <=? n) && (n <=? 57))%nat.

Definition is_alpha (c : ascii) : bool :=
  let n := nat_of_ascii c in
  (((65 <=? n) && (n <=? 90)) || ((97 <=? n) && (n <=? 122)))%nat.

Definition is_alnum (c : ascii) : bool := is_digit c || is_alpha c.

Definition hex_value (c : ascii) : option N :=
  let n := N_of_ascii c in
  if is_digit c then Some (n - 48)%N
  else if ((65 <=? n) && (n <=? 70))%N then Some (n - 55)%N
  else if ((97 <=? n) && (n <=? 102))%N then Some (n - 87)%N
  else None.

Definition digit_value (base : N) (c : ascii) : option N :=
  if (base =? 10)%N then (if is_digit c then Some (N_of_ascii c - 48)%N else None)
  else hex_value c.

(** The longest run of digits in [base] at the head of [s], read as a number
    continuing [acc], and what follows it; [seen] tells whether a digit was
    read. *)
Fixpoint read_digits (base : N) (seen : bool) (acc : N) (s : string)
  : option (N * string) :=
  match s with
  | EmptyString => if seen then Some (acc, "") else None
  | String c s' =>
      match digit_value base c with
      | Some v => read_digits base true (acc * base + v)%N s'
      | None => if seen then Some (acc, s) else None
      end
  end.

(** [#123...] and [#x7B...] / [#X7B...]. *)
Definition numeric (buf : string) : option (N * string) :=
  match buf with
  | String "#" rest =>
      match read_digits 10 false 0 rest with
      | Some r => Some r
      | None =>
          match rest with
          | String "x" h | String "X" h => read_digits 16 false 0 h
          | _ => None
          end
      end
  | _ => None
  end.

(** UTF-8 of a code point below 0x110000. *)
Definition utf8 (cp : N) : string :=
  let byte (n : N) := ascii_of_N n in
  let cont (n : N) := byte (128 + n mod 64)%N in
  if (cp <? 128)%N then String (byte cp) ""
  else if (cp <? 2048)%N then String (byte (192 + cp / 64)%N) (String (cont cp) "")
  else if (cp <? 65536)%N then
    String (byte (224 + cp / 4096)%N) (String (cont (cp / 64)%N) (String (cont cp) ""))
  else
    String (byte (240 + cp / 262144)%N)
      (String (cont (cp / 4096)%N) (String (cont (cp / 64)%N) (String (cont cp) ""))).

(** [codePointToSymbol]: surrogates and values beyond U+10FFFF give U+FFFD,
    then the override table, then the character itself. *)
Definition codePointToSymbol (cp : N) : string :=
  if ((55296 <=? cp) && (cp <=? 57343) || (1114111 <? cp))%N then utf8 65533
  else match find (fun kv => (fst kv =? cp)%N) (decodeMapNumeric tb) with
       | Some kv => snd kv
       | None => utf8 cp
       end.

(** [strip p s]: [s] without its prefix [p]. *)
Fixpoint strip (p s : string) : option string :=
  match p, s with
  | EmptyString, _ => Some s
  | String a p', String b s' => if (a =? b)%char then strip p' s' else None
  | String _ _, EmptyString => None
  end.

(** The first legacy name that starts [buf] and is not directly followed by
    [;]. *)
Fixpoint legacy_prefix (l : list (string * string)) (buf : string) (semi : bool)
  : option (string * string) :=
  match l with
  | [] => None
  | (name, symbol) :: l' =>
      match strip name buf with
      | Some rest =>
          if semi && (rest =? "") then legacy_prefix l' buf semi
          else Some (symbol, rest)
      | None => legacy_prefix l' buf semi
      end
  end.

(** The text for [&buf] when the reference ends: [semi] tells whether it is
    ended by [;] (which then belongs to it) or by something else. *)
Definition close (buf : string) (semi : bool) : string :=
  let tail := if semi then ";" else "" in
  match (if semi then named buf else None) with
  | Some symbol => symbol
  | None =>
      match legacy_prefix (decodeMapLegacy tb) buf semi with
      | Some (symbol, rest) => symbol ++ rest ++ tail
      | None =>
          match numeric buf with
          | Some (cp, rest) =>
              codePointToSymbol cp ++ (if rest =? "" then "" else rest ++ tail)
          | None => "&" ++ buf ++ tail
          end
      end
  end.

(** A reference goes on with letters and digits, and with [#] right after
    the [&]. *)
Definition extends (buf : string) (c : ascii) : bool :=
  is_alnum c || ((c =? "#")%char && (buf =? "")).

(** One pass over the text; [st] holds the characters read since a pending
    [&]. *)
Fixpoint scan (st : option string) (s : string) : string :=
  match s with
  | EmptyString =>
      match st with
      | None => ""
      | Some buf => close buf false
      end
  | String c s' =>
      match st with
      | None =>
          if (c =? "&")%char then scan (Some "") s' else String c (scan None s')
      | Some buf =>
          if extends buf c then scan (Some (buf ++ String c "")) s'
          else if (c =? ";")%char then close buf true ++ scan None s'
          else if (c =? "&")%char then close buf false ++ scan (Some "") s'
          else close buf false ++ String c (scan None s')
      end
  end.

Definition decode (s : string) : string := scan None s.

(** The characters that end a pending reference and are kept as they are. *)
Definition breaks (c : ascii) : bool :=
  negb (is_alnum c) && negb (c =? "#")%char && negb (c =? ";")%char
  && negb (c =? "&")%char.

(** The tables hold the references that the serializer writes. *)
Definition knows_escapes : Prop :=
  named "amp" = Some "&" /\ named "lt" = Some "<" /\ named "gt" = Some ">" /\
  named "quot" = Some Dom.dquote /\ named "nbsp" = Some Dom.nbsp.

(** [clean s]: decoding [s] followed by more text is decoding [s], then the
    rest: no reference of [s] is left pending at its end. *)
Definition clean (s : string) : Prop :=
  forall r, scan None (s ++ r) = scan None s ++ scan None r.

End Decode.

End He.

(* ------------------------------------------------------------------------- *)
(** * Effects

    What a run of the server does to the outside, in order: console lines,
    timers it waits on, statements it runs on the database. *)

Module Effects.

Inductive event : Type :=
| ConsoleLog (line : string)
| ConsoleError (line : string)
| Timer (ms : nat)                       (* a wait on [setTimeout] *)
| DbRun (lawType content : string).      (* a write statement, with its parameters *)

Definition is_write (e : event) : bool :=
  match e with DbRun _ _ => true | _ => false end.

(** The writes of a trace. *)
Definition writes (evs : list event) : nat := List.length (filter is_write evs).

(** The waits of a trace, in order. *)
Definition waits (evs : list event) : list nat :=
  flat_map (fun e => match e with Timer ms => [ms] | _ => [] end) evs.

(** The time a trace spends waiting on timers, in ms. *)
Definition total_wait (evs : list event) : nat := list_sum (waits evs).

End Effects.

(* ------------------------------------------------------------------------- *)
(** * The HTTP client (axios with axios-retry)

    A request is answered by the environment: [transport n] is the outcome of
    its attempt number [n] (attempt 0 is the first one). *)

Module Axios.

Import Effects.

Record error := mkError
  { code : option string;     (* [error.code]: ECONNRESET, ECONNABORTED, ... *)
    status : option nat;      (* [error.response.status] *)
    message : string }.

Inductive outcome : Type :=
| Resolved (data : list Byte.byte)
| Rejected (e : error).

Definition transport := nat -> outcome.

(** The options given to [axiosRetry]. [retryDelay] also says what it prints. *)
Record retry_options := mkRetry
  { retries : nat;
    retryDelay : nat -> list event * nat;
    retryCondition : error -> bool }.

(** The retry interceptor: a rejected attempt is tried again while retries
    are left ([left] of them) and [retryCondition] accepts the error; the count
    is incremented first and [retryDelay] of the new count is waited. *)
Fixpoint attempt (o : retry_options) (left retryCount : nat) (t : transport)
  : list event * outcome :=
  match t retryCount with
  | Resolved data => ([], Resolved data)
  | Rejected e =>
      match left with
      | 0 => ([], Rejected e)
      | S left' =>
          if retryCondition o e then
            let (printed, ms) := retryDelay o (S retryCount) in
            let (evs, r) := attempt o left' (S retryCount) t in
            ((printed ++ [Timer ms]) ++ evs, r)%list
          else ([], Rejected e)
      end
  end.

(** [axios.get] under [axiosRetry(axios, o)]. *)
Definition get (o : retry_options) (t : transport) : list event * outcome :=
  attempt o (retries o) 0 t.

(** [axios.get] without the interceptor: one attempt. *)
Definition get_once (t : transport) : outcome := t 0.

(** The number of attempts a request makes. *)
Fixpoint attempts_made (o : retry_options) (left retryCount : nat) (t : transport)
  : nat :=
  match t retryCount with
  | Resolved _ => 1
  | Rejected e =>
      match left with
      | 0 => 1
      | S left' =>
          if retryCondition o e then S (attempts_made o left' (S retryCount) t)
          else 1
      end
  end.

End Axios.

(* ------------------------------------------------------------------------- *)
(** * The endpoint's answers (express) *)

Module Http.

Inductive body : Type :=
| Send (text : string)                    (* [res.send(text)] *)
| Json (object : list (string * string)). (* [res.json({k: v, ...})] *)

Record response := mkResponse { status : nat; payload : body }.

End Http.

(* ------------------------------------------------------------------------- *)
(** * The server, current revision (unnamed source file) *)

Module Part000.

Import Effects.

Record law := mkLaw { type : string; url : string }.

Definition lawsToUpdate : list law :=
  [ mkLaw "codigo-civil" "https://www.planalto.gov.br/ccivil_03/Leis/2002/L10406compilada.htm";
    mkLaw "processo-civil" "https://www.planalto.gov.br/ccivil_03/decreto-lei/1937-1946/del1608.htm";
    mkLaw "eleitoral" "https://www.planalto.gov.br/ccivil_03/Leis/L4737compilado.htm";
    mkLaw "codigo-comercial" "https://www.planalto.gov.br/ccivil_03/leis/lim/LIM556compilado.htm";
    mkLaw "codigo-penal" "https://www.planalto.gov.br/ccivil_03/decreto-lei/del2848compilado.htm";
    mkLaw "constituicao-federal" "https://www.planalto.gov.br/ccivil_03/constituicao/ConstituicaoCompilado.htm";
    mkLaw "codigo-tributario" "https://www.planalto.gov.br/ccivil_03/leis/L5172Compilado.htm";
    mkLaw "leis-trabalho" "https://www.planalto.gov.br/ccivil_03/decreto-lei/Del5452compilado.htm";
    mkLaw "defesa-consumidor" "https://www.planalto.gov.br/ccivil_03/leis/l8078compilado.htm";
    mkLaw "advocacia" "https://www.planalto.gov.br/ccivil_03/leis/l8906.htm";
    mkLaw "estatuto-deficiencia" "https://www.planalto.gov.br/ccivil_03/_ato2015-2018/2015/lei/l13146.htm" ].

(** The process: the database handle and what it has done so far. *)
Record state := mkState { db : Sqlite.table; trace : list event }.

Definition emit (evs : list event) (st : state) : state :=
  mkState (db st) (trace st ++ evs)%list.

(** What one call of [updateLaw] meets outside: the outcomes of its request's
    attempts, and [CURRENT_TIMESTAMP] when it writes. *)
Record call := mkCall { attempts : Axios.transport; clock : Z }.

(** [if (content)]: [null] and the empty string are falsy. *)
Definition truthy (content : option string) : bool :=
  match content with
  | Some c => negb (c =? "")
  | None => false
  end.

(** [GET /laws/:lawType] *)
Definition get_laws (t : Sqlite.table) (lawType : string) : Http.response :=
  match Sqlite.select_latest lawType t with
  | Some row => Http.mkResponse 200 (Http.Send (Sqlite.content row))
  | None => Http.mkResponse 404 (Http.Json [("error", "Lei não encontrada")])
  end.

(** The tags that [parseHTML] removes. *)
Definition removed (name : string) : bool :=
  existsb (String.eqb name) ["img"; "script"; "style"; "link"].

(** The tags under which a text node is not written out as text: the removed
    ones, and the void ones, whose children are not serialized. *)
Definition hidden (name : string) : bool := Dom.is_void name || removed name.

Section Server.

Variable he : He.tables.
(** [cheerio.load] *)
Variable load : string -> Dom.document.
(** [iconv.decode(_, 'windows-1252')] *)
Variable iconv_decode : list Byte.byte -> string.
(** [axiosRetry.isNetworkOrIdempotentRequestError] *)
Variable isNetworkOrIdempotentRequestError : Axios.error -> bool.

Definition retry_options : Axios.retry_options :=
  Axios.mkRetry 3
    (fun retryCount =>
       ([ConsoleLog ("Falha na requisição. Tentativa de retry #" ++ Str.of_nat retryCount
                     ++ ". Aguardando " ++ Str.of_nat (retryCount * 2) ++ " segundos...")],
        retryCount * 2000))
    (fun error =>
       isNetworkOrIdempotentRequestError error
       || match Axios.code error with
          | Some c => c =? "ECONNRESET"
          | None => false
          end).

(** The tree that [parseHTML] serializes. *)
Definition cleaned (d : Dom.document) : Dom.document :=
  Dom.removeAttr "a" "href" (Dom.remove ["img"; "script"; "style"; "link"] d).

Definition parseHTML (html : string) : string :=
  He.decode he (Dom.html (cleaned (load html))).

Definition fetchAndParseData (t : Axios.transport) (url : string)
  : list event * option string :=
  match Axios.get retry_options t with
  | (evs, Axios.Resolved data) => (evs, Some (parseHTML (iconv_decode data)))
  | (evs, Axios.Rejected error) =>
      ((evs ++ [ConsoleError ("ERRO FINAL ao buscar dados de " ++ url ++ ": "
                              ++ Axios.message error)])%list, None)
  end.

Definition updateLaw (c : call) (lawType url : string) (st : state) : state :=
  let st := emit [ConsoleLog ("Buscando " ++ lawType ++ "...")] st in
  let (evs, content) := fetchAndParseData (attempts c) url in
  let st := emit evs st in
  if truthy content then
    match content with
    | Some text =>
        mkState (Sqlite.upsert (clock c) lawType text (db st))
          (trace st ++ [DbRun lawType text;
                        ConsoleLog ("✅ Lei " ++ lawType ++ " atualizada no banco de dados.")])%list
    | None => st
    end
  else
    emit [ConsoleLog ("❌ Falha ao obter conteúdo para " ++ lawType
                      ++ " após todas as tentativas.")] st.

(** The body of [for (const law of laws)]; [calls i] is what the call for the
    entry at position [i] meets. *)
Fixpoint for_of (calls : nat -> call) (i : nat) (laws : list law) (st : state)
  : state :=
  match laws with
  | [] => st
  | law :: rest =>
      let st := updateLaw (calls i) (type law) (url law) st in
      let st := emit [ConsoleLog "...pausa de 2 segundos..."; Timer 2000] st in
      for_of calls (S i) rest st
  end.

Definition scheduleLawUpdates (calls : nat -> call) (st : state) : state :=
  let st := emit [ConsoleLog "Iniciando rotina de atualização de leis..."] st in
  let st := for_of calls 0 lawsToUpdate st in
  emit [ConsoleLog "--- Rotina de atualização concluída. Próxima em 24 horas. ---"] st.

(** ** The event loop

    [scheduleLawUpdates()] at start and [setInterval(scheduleLawUpdates, 24h)]:
    every firing starts an invocation, which is suspended at its [await]s.  A
    running invocation is the list of entries it has still to process.  The
    console lines of one entry are kept together. *)

Record system := mkSystem { process : state; running : list (list law) }.

Inductive tick : Type :=
| Fire                          (* the call at start, or the interval timer *)
| Resume (i : nat) (c : call).  (* the awaits of invocation [i] complete for one entry *)

Definition boot : system := mkSystem (mkState [] []) [].

Fixpoint resume (i : nat) (c : call) (st : state) (tasks : list (list law))
  {struct tasks} : state * list (list law) :=
  match tasks with
  | [] => (st, [])
  | task :: others =>
      match i with
      | 0 =>
          match task with
          | [] => (st, others)
          | law :: rest =>
              let st := updateLaw c (type law) (url law) st in
              let st := emit [ConsoleLog "...pausa de 2 segundos..."; Timer 2000] st in
              match rest with
              | [] =>
                  (emit [ConsoleLog "--- Rotina de atualização concluída. Próxima em 24 horas. ---"] st,
                   others)
              | _ => (st, rest :: others)
              end
          end
      | S j =>
          let (st', others') := resume j c st others in
          (st', task :: others')
      end
  end.

Definition step (s : system) (t : tick) : system :=
  match t with
  | Fire =>
      mkSystem (emit [ConsoleLog "Iniciando rotina de atualização de leis..."] (process s))
        (running s ++ [lawsToUpdate])%list
  | Resume i c =>
      let (st, tasks) := resume i c (process s) (running s) in
      mkSystem st tasks
  end.

Definition run (ticks : list tick) (s : system) : system := fold_left step ticks s.

(** ** Observations on a run *)

(** What [updateLaw] got from its fetch. *)
Definition fetched (c : call) (url : string) : option string :=
  snd (fetchAndParseData (attempts c) url).

(** What one call of [updateLaw] adds to the trace. *)
Definition update_events (c : call) (lawType url : string) : list event :=
  ((ConsoleLog ("Buscando " ++ lawType ++ "...") :: fst (fetchAndParseData (attempts c) url))
   ++ match fetched c url with
     | Some text =>
         if text =? "" then
           [ConsoleLog ("❌ Falha ao obter conteúdo para " ++ lawType
                        ++ " após todas as tentativas.")]
         else
           [DbRun lawType text;
            ConsoleLog ("✅ Lei " ++ lawType ++ " atualizada no banco de dados.")]
     | None =>
         [ConsoleLog ("❌ Falha ao obter conteúdo para " ++ lawType
                      ++ " após todas as tentativas.")]
     end)%list.

(** The write of one call, if it makes one. *)
Definition update_write (c : call) (lawType url : string) : list Sqlite.write :=
  match fetched c url with
  | Some text => if text =? "" then [] else [Sqlite.mkWrite (clock c) lawType text]
  | None => []
  end.

(** The writes of a pass over [laws], in order. *)
Fixpoint cycle_writes (calls : nat -> call) (i : nat) (laws : list law) : list Sqlite.write :=
  match laws with
  | [] => []
  | law :: rest =>
      (update_write (calls i) (type law) (url law) ++ cycle_writes calls (S i) rest)%list
  end.

(** The content of the last write statement run for [ty] in a trace, if
    any. *)
Fixpoint last_run (ty : string) (evs : list event) : option string :=
  match evs with
  | [] => None
  | e :: evs' =>
      match last_run ty evs' with
      | Some c => Some c
      | None =>
          match e with
          | DbRun lawType c => if lawType =? ty then Some c else None
          | _ => None
          end
      end
  end.

(** What is read for a type after a stretch of the run: the content of the
    last write statement the stretch ran for the type, or else what was read
    before. *)
Definition follows (st st' : state) : Prop :=
  exists evs,
    trace st' = (trace st ++ evs)%list /\
    forall ty,
      option_map Sqlite.content (Sqlite.select_latest ty (db st')) =
      match last_run ty evs with
      | Some c => Some c
      | None => option_map Sqlite.content (Sqlite.select_latest ty (db st))
      end.

(** The entries that invocations in progress have still to process. *)
Definition pending (tasks : list (list law)) : nat :=
  fold_right (fun task n => List.length task + n) 0 tasks.

Definition fires (ticks : list tick) : nat :=
  List.length (filter (fun t => match t with Fire => true | Resume _ _ => false end) ticks).

Definition nonempty_contents (t : Sqlite.table) : Prop :=
  Forall (fun r => Sqlite.content r <> "") t.

(** Every invocation in progress has entries of the catalogue to process. *)
Definition from_catalogue (tasks : list (list law)) : Prop :=
  Forall (fun task => incl task lawsToUpdate) tasks.

End Server.

End Part000.

(* ------------------------------------------------------------------------- *)
(** * The server, [scraping-backend/server.js], first document

    The same table and endpoint; no retry interceptor, [link] elements are
    kept, nothing is printed when a fetch gives nothing. *)

Module ServerA.

Import Effects.

Section Server.

Variable he : He.tables.
Variable load : string -> Dom.document.
(** The text axios makes of the response body when no [responseType] is given. *)
Variable response_text : list Byte.byte -> string.

Definition cleaned (d : Dom.document) : Dom.document :=
  Dom.removeAttr "a" "href" (Dom.remove ["img"; "script"; "style"] d).

Definition parseHTML (html : string) : string :=
  He.decode he (Dom.html (cleaned (load html))).

Definition fetchAndParseData (t : Axios.transport) (url : string)
  : list event * option string :=
  match Axios.get_once t with
  | Axios.Resolved data => ([], Some (parseHTML (response_text data)))
  | Axios.Rejected error =>
      ([ConsoleError ("Erro ao buscar dados de " ++ url ++ ": " ++ Axios.message error)],
       None)
  end.

Definition updateLaw (c : Part000.call) (lawType url : string) (st : Part000.state)
  : Part000.state :=
  let (evs, content) := fetchAndParseData (Part000.attempts c) url in
  let st := Part000.emit evs st in
  if Part000.truthy content then
    match content with
    | Some text =>
        Part000.mkState
          (Sqlite.upsert (Part000.clock c) lawType text (Part000.db st))
          (Part000.trace st
           ++ [DbRun lawType text;
               ConsoleLog ("Lei " ++ lawType ++ " atualizada no banco de dados.")])%list
    | None => st
    end
  else st.

(** The body of [for (const law of lawsToUpdate)]: no pause between the
    entries.  The catalogue of this document is the one of the current
    revision. *)
Fixpoint for_of (calls : nat -> Part000.call) (i : nat) (laws : list Part000.law)
  (st : Part000.state) : Part000.state :=
  match laws with
  | [] => st
  | law :: rest =>
      for_of calls (S i) rest
        (updateLaw (calls i) (Part000.type law) (Part000.url law) st)
  end.

Definition scheduleLawUpdates (calls : nat -> Part000.call) (st : Part000.state)
  : Part000.state :=
  for_of calls 0 Part000.lawsToUpdate st.

End Server.

End ServerA.

(* ------------------------------------------------------------------------- *)
(** * The server, [scraping-backend/server.js], second document

    [law_type] is not UNIQUE and every update is a plain INSERT; only [img]
    elements are removed; the stored text is the serialized tree and entities
    are decoded when it is read. *)

Module ServerB.

Import Effects.

Section Server.

Variable he : He.tables.
Variable load : string -> Dom.document.
(** [data.toString('latin1')] *)
Variable latin1 : list Byte.byte -> string.

Definition cleaned (d : Dom.document) : Dom.document :=
  Dom.removeAttr "a" "href" (Dom.remove ["img"] d).

Definition parseHTML (html : string) : string := Dom.html (cleaned (load html)).

Definition fetchAndParseData (t : Axios.transport) (url : string)
  : list event * option string :=
  match Axios.get_once t with
  | Axios.Resolved data => ([], Some (parseHTML (latin1 data)))
  | Axios.Rejected error =>
      ([ConsoleError ("Erro ao buscar e decodificar dados: " ++ Axios.message error)],
       None)
  end.

Definition updateLaw (c : Part000.call) (lawType url : string) (st : Part000.state)
  : Part000.state :=
  let (evs, content) := fetchAndParseData (Part000.attempts c) url in
  let st := Part000.emit evs st in
  if Part000.truthy content then
    match content with
    | Some text =>
        Part000.mkState
          (Sqlite.insert (Part000.clock c) lawType text (Part000.db st))
          (Part000.trace st
           ++ [DbRun lawType text;
               ConsoleLog ("Lei " ++ lawType ++ " atualizada no banco de dados.")])%list
    | None => st
    end
  else st.

(** [GET /laws/:lawType] *)
Definition get_laws (t : Sqlite.table) (lawType : string) : Http.response :=
  match Sqlite.select_latest lawType t with
  | Some row => Http.mkResponse 200 (Http.Send (He.decode he (Sqlite.content row)))
  | None => Http.mkResponse 404 (Http.Json [("error", "Lei não encontrada")])
  end.

(** [lawsToUpdate.forEach(law => { updateLaw(law.type, law.url); })]: every
    update is started at once and none is awaited; each goes on, in one piece,
    when its fetch completes.  [order] is the order in which the fetches
    complete, by position in the catalogue (the one of the current revision);
    [calls j] is what the update of the entry at position [j] meets. *)
Definition settle (calls : nat -> Part000.call) (st : Part000.state) (j : nat)
  : Part000.state :=
  match nth_error Part000.lawsToUpdate j with
  | Some law => updateLaw (calls j) (Part000.type law) (Part000.url law) st
  | None => st
  end.

Definition scheduleLawUpdates (order : list nat) (calls : nat -> Part000.call)
  (st : Part000.state) : Part000.state :=
  fold_left (settle calls) order st.

End Server.

End ServerB.

(* ------------------------------------------------------------------------- *)
(** * Test doubles

    A few entries of the entity tables, a parser that knows three pages, and
    transports, to run the definitions on. *)

Module Fixture.

Definition ccedil : string := "ç".

Definition he : He.tables :=
  He.mkTables
    [("amp", "&"); ("lt", "<"); ("gt", ">"); ("quot", Dom.dquote);
     ("nbsp", Dom.nbsp); ("ccedil", ccedil)]
    [("amp", "&"); ("lt", "<"); ("gt", ">"); ("quot", Dom.dquote);
     ("nbsp", Dom.nbsp); ("ccedil", ccedil)]
    [(0%N, He.utf8 65533)].

Definition page (body : list Dom.node) : Dom.document :=
  [Dom.Element "html" [] [Dom.Element "head" [] []; Dom.Element "body" [] body]].

Definition sample_nodes : list Dom.node :=
  [Dom.Element "img" [("src", "x")] [];
   Dom.Element "script" [] [Dom.Text "alert(1)"];
   Dom.Element "a" [("href", "http://x")] [Dom.Text "text"]].

(** The markup of the sanitization example, with its quotes. *)
Definition sample_markup : string :=
  "<img src=" ++ Dom.dquote ++ "x" ++ Dom.dquote ++ "><script>alert(1)</script><a href="
  ++ Dom.dquote ++ "http://x" ++ Dom.dquote ++ ">text</a>".

(** The same, followed by a script written with character references. *)
Definition escaped_markup : string :=
  sample_markup ++ "&lt;script&gt;alert(2)&lt;/script&gt;".

Definition entity_markup : string := "<p>Constitui&ccedil;&atilde;o &amp; Justi&ccedil;a</p>".

(** What an HTML parser builds from these pages (character references in text
    are resolved by the parser); any other input is an empty document here. *)
Definition load (html : string) : Dom.document :=
  if html =? sample_markup then page sample_nodes
  else if html =? escaped_markup then
    page (sample_nodes ++ [Dom.Text "<script>alert(2)</script>"])%list
  else if html =? entity_markup then
    page [Dom.Element "p" [] [Dom.Text "Constituição & Justiça"]]
  else [].

(** Bytes to text, one character per byte (enough for ASCII pages). *)
Definition bytes_text (data : list Byte.byte) : string := string_of_list_byte data.

Definition bytes_of (s : string) : list Byte.byte := list_byte_of_string s.

Definition reset : Axios.error := Axios.mkError (Some "ECONNRESET") None "read ECONNRESET".

Definition not_found : Axios.error :=
  Axios.mkError (Some "ERR_BAD_REQUEST") (Some 404) "Request failed with status code 404".

(** No error is a network error for this double: only the program's own
    ECONNRESET test can ask for a retry. *)
Definition no_network_error (e : Axios.error) : bool := false.

(** A server that never answers. *)
Definition down : Axios.transport := fun _ => Axios.Rejected reset.

(** A server that answers [html] at once. *)
Definition up (html : string) : Axios.transport := fun _ => Axios.Resolved (bytes_of html).

(** A server that resets the first [n] attempts, then answers [html]. *)
Definition flaky (n : nat) (html : string) : Axios.transport :=
  fun k => if (k <? n)%nat then Axios.Rejected reset else Axios.Resolved (bytes_of html).

(** What the sample page normalizes to. *)
Definition sample_clean : string := "<html><head></head><body><a>text</a></body></html>".

(** Every server answers the sample page, except the one of the entry at
    position 2 ([eleitoral]), which resets every connection. *)
Definition one_down (i : nat) : Part000.call :=
  if (i =? 2)%nat then Part000.mkCall down 0
  else Part000.mkCall (up sample_markup) (Z.of_nat (100 + i)).

Definition answering : Part000.call := Part000.mkCall (up sample_markup) 100.

(** A second trigger arrives when the first cycle has processed one entry;
    then the first cycle goes on to its end, and the second one after it. *)
Definition overlap : list Part000.tick :=
  (Part000.Fire :: Part000.Resume 0 answering :: Part000.Fire
   :: repeat (Part000.Resume 0 answering) 21)%list.

Definition eleitoral : Part000.law :=
  Part000.mkLaw "eleitoral" "https://www.planalto.gov.br/ccivil_03/Leis/L4737compilado.htm".

Definition stale : Part000.state :=
  Part000.mkState [Sqlite.mkRow 1 "eleitoral" "texto anterior" 5] [].

End Fixture.

(* ========================================================================= *)
(** * Facts *)

Module StrFacts.

Import Str.

Lemma append_nil_r (s : string) : s ++ "" = s.
Proof. induction s as [|c s IH]; simpl; [reflexivity | now rewrite IH]. Qed.

Lemma append_assoc (a b c : string) : (a ++ b) ++ c = a ++ (b ++ c).
Proof. induction a as [|x a IH]; simpl; [reflexivity | now rewrite IH]. Qed.

Lemma includes_unfold (needle s : string) :
  includes needle s =
  if String.prefix needle s then true
  else match s with
       | EmptyString => false
       | String _ s' => includes needle s'
       end.
Proof. destruct s; reflexivity. Qed.

(** Equal up to the association of [++] and the unfolding of literals. *)
Ltac reassociate :=
  repeat first [ rewrite !append_assoc | progress (cbn [append]) ]; reflexivity.

End StrFacts.

(* ------------------------------------------------------------------------- *)
(** ** The table *)

Module SqliteFacts.

Import Sqlite.

Lemma is_type_true ty r : is_type ty r = true <-> law_type r = ty.
Proof. unfold is_type. apply String.eqb_eq. Qed.

Lemma is_type_false ty r : is_type ty r = false <-> law_type r <> ty.
Proof. unfold is_type. apply String.eqb_neq. Qed.

Lemma rows_for_none ty t : ~ In ty (map law_type t) -> rows_for ty t = [].
Proof.
  induction t as [|r t IH]; simpl; intros H; [reflexivity|].
  destruct (is_type ty r) eqn:E.
  - apply is_type_true in E. tauto.
  - apply IH. tauto.
Qed.

Lemma rows_for_nil_iff ty t : rows_for ty t = [] <-> existsb (is_type ty) t = false.
Proof.
  induction t as [|r t IH]; simpl; [tauto|].
  destruct (is_type ty r); simpl; [split; discriminate | exact IH].
Qed.

Lemma existsb_is_type ty t : existsb (is_type ty) t = true <-> In ty (map law_type t).
Proof.
  rewrite existsb_exists, in_map_iff. split.
  - intros (r & Hin & E). exists r. now apply is_type_true in E.
  - intros (r & E & Hin). exists r. now rewrite is_type_true.
Qed.

Lemma rows_for_app ty (a b : table) :
  rows_for ty (a ++ b)%list = (rows_for ty a ++ rows_for ty b)%list.
Proof. apply filter_app. Qed.

Lemma do_update_types now ty c t : map law_type (do_update now ty c t) = map law_type t.
Proof.
  induction t as [|r t IH]; simpl; [reflexivity|].
  destruct (is_type ty r); simpl; [reflexivity | now rewrite IH].
Qed.

Lemma upsert_unique now ty c t :
  unique_law_type t -> unique_law_type (upsert now ty c t).
Proof.
  unfold unique_law_type, upsert, insert. intros U.
  destruct (existsb (is_type ty) t) eqn:E.
  - now rewrite do_update_types.
  - rewrite map_app. simpl.
    apply NoDup_app; [exact U | repeat constructor; simpl; tauto |].
    intros x Hx [<-|[]].
    apply existsb_is_type in Hx. congruence.
Qed.

Lemma do_update_other now ty ty' c t :
  ty' <> ty -> rows_for ty (do_update now ty' c t) = rows_for ty t.
Proof.
  intros N. induction t as [|r t IH]; simpl; [reflexivity|].
  destruct (is_type ty' r) eqn:E; simpl.
  - apply is_type_true in E.
    assert (F : is_type ty r = false) by (apply is_type_false; congruence).
    unfold is_type in *. simpl. now rewrite F.
  - now rewrite IH.
Qed.

Lemma upsert_other now ty ty' c t :
  ty' <> ty -> rows_for ty (upsert now ty' c t) = rows_for ty t.
Proof.
  intros N. unfold upsert, insert.
  destruct (existsb (is_type ty') t).
  - now apply do_update_other.
  - rewrite rows_for_app. simpl.
    assert (F : is_type ty (mkRow (next_id t) ty' c now) = false)
      by now apply is_type_false.
    rewrite F. apply app_nil_r.
Qed.

Lemma do_update_same now ty c t :
  unique_law_type t -> existsb (is_type ty) t = true ->
  exists i, rows_for ty (do_update now ty c t) = [mkRow i ty c now].
Proof.
  unfold unique_law_type.
  induction t as [|r t IH]; simpl; intros U E; [discriminate|].
  inversion U as [|x l Hnin U']; subst.
  destruct (is_type ty r) eqn:Er; simpl.
  - pose proof Er as Eq. apply is_type_true in Eq.
    exists (id r). unfold is_type at 1. simpl. rewrite Eq, String.eqb_refl.
    f_equal. apply rows_for_none. now rewrite <- Eq.
  - rewrite Er. simpl in E. now apply IH.
Qed.

Lemma upsert_same now ty c t :
  unique_law_type t -> exists i, rows_for ty (upsert now ty c t) = [mkRow i ty c now].
Proof.
  intros U. unfold upsert.
  destruct (existsb (is_type ty) t) eqn:E.
  - now apply do_update_same.
  - exists (next_id t). unfold insert. rewrite rows_for_app.
    apply rows_for_nil_iff in E. rewrite E. simpl.
    unfold is_type. simpl. now rewrite String.eqb_refl.
Qed.

Lemma unique_at_most_one ty t : unique_law_type t -> List.length (rows_for ty t) <= 1.
Proof.
  unfold unique_law_type.
  induction t as [|r t IH]; simpl; intros U; [lia|].
  inversion U as [|x l Hnin U']; subst.
  destruct (is_type ty r) eqn:E; simpl; [|now apply IH].
  apply is_type_true in E. rewrite rows_for_none; [simpl; lia | congruence].
Qed.

Lemma fold_upsert_unique ws t :
  unique_law_type t -> unique_law_type (fold_left apply_upsert ws t).
Proof.
  revert t. induction ws as [|w ws IH]; simpl; intros t U; [exact U|].
  apply IH. now apply upsert_unique.
Qed.

(** What [ORDER BY last_updated DESC LIMIT 1] promises, whatever row it
    takes among equals. *)
Lemma latest_spec rs :
  match latest rs with
  | None => rs = []
  | Some m => In m rs /\ forall r, In r rs -> (last_updated r <= last_updated m)%Z
  end.
Proof.
  induction rs as [|r rs IH]; simpl; [reflexivity|].
  destruct (latest rs) as [m|].
  - destruct IH as [Hin Hmax].
    destruct (Z.ltb_spec (last_updated r) (last_updated m)).
    + split; [now right|]. intros r' [<-|H']; [lia | now apply Hmax].
    + split; [now left|]. intros r' [<-|H']; [lia|].
      specialize (Hmax _ H'). lia.
  - subst rs. split; [now left|]. intros r' [<-|[]]. lia.
Qed.

Lemma select_latest_in ty t row :
  select_latest ty t = Some row -> In row t /\ law_type row = ty.
Proof.
  unfold select_latest. intros E.
  pose proof (latest_spec (rows_for ty t)) as S. rewrite E in S.
  destruct S as [Hin _]. apply filter_In in Hin.
  destruct Hin as [Hin Ht]. now apply is_type_true in Ht.
Qed.

(** The content the query reads after one upsert. *)
Lemma select_after_upsert now ty ty' c t :
  unique_law_type t ->
  option_map content (select_latest ty (upsert now ty' c t)) =
  if ty' =? ty then Some c else option_map content (select_latest ty t).
Proof.
  intros U. unfold select_latest.
  destruct (String.eqb_spec ty' ty) as [->|N].
  - destruct (upsert_same now ty c t U) as [i ->]. reflexivity.
  - now rewrite upsert_other.
Qed.

(** Last write wins, over a whole history. *)
Lemma select_after_history ty ws t :
  unique_law_type t ->
  option_map content (select_latest ty (fold_left apply_upsert ws t)) =
  match last_written ty ws with
  | Some c => Some c
  | None => option_map content (select_latest ty t)
  end.
Proof.
  revert t. induction ws as [|w ws IH]; simpl; intros t U; [reflexivity|].
  rewrite IH by now apply upsert_unique.
  destruct (last_written ty ws); [reflexivity|].
  unfold apply_upsert. rewrite select_after_upsert by exact U.
  now destruct (w_type w =? ty).
Qed.

Lemma unique_row_is_latest t row :
  unique_law_type t -> In row t -> select_latest (law_type row) t = Some row.
Proof.
  unfold unique_law_type, select_latest.
  induction t as [|r t IH]; simpl; intros U Hin; [contradiction|].
  inversion U as [|x l Hnin U']; subst.
  destruct Hin as [->|Hin].
  - unfold is_type at 1. rewrite String.eqb_refl.
    rewrite rows_for_none by exact Hnin. reflexivity.
  - destruct (is_type (law_type row) r) eqn:E.
    + apply is_type_true in E. exfalso. apply Hnin. rewrite E. now apply in_map.
    + now apply IH.
Qed.

(** Without the UNIQUE constraint: a plain INSERT is read back when its clock
    is later than that of every earlier row of the type. *)
Lemma insert_read_back now ty c t :
  (forall r, In r t -> law_type r = ty -> (last_updated r < now)%Z) ->
  select_latest ty (insert now ty c t) = Some (mkRow (next_id t) ty c now).
Proof.
  intros Old. unfold select_latest, insert. rewrite rows_for_app.
  change (rows_for ty [mkRow (next_id t) ty c now])
    with (if ty =? ty then [mkRow (next_id t) ty c now] else []).
  rewrite String.eqb_refl. generalize (next_id t) as i. intros i.
  assert (Old' : forall r, In r (rows_for ty t) -> (last_updated r < now)%Z).
  { intros r Hr. apply filter_In in Hr. destruct Hr as [Hin Ht].
    apply Old; [exact Hin | now apply is_type_true]. }
  induction (rows_for ty t) as [|r rs IH]; [reflexivity|].
  simpl. rewrite IH by (intros r' Hr'; apply Old'; now right). simpl.
  assert (L : (last_updated r <? now)%Z = true)
    by (apply Z.ltb_lt, Old'; now left).
  now rewrite L.
Qed.

End SqliteFacts.

(* ------------------------------------------------------------------------- *)
(** ** The store and the endpoint of the current revision *)

Module StoreFacts.

Import Sqlite Part000.

Lemma get_laws_found t ty c :
  option_map content (select_latest ty t) = Some c ->
  get_laws t ty = Http.mkResponse 200 (Http.Send c).
Proof.
  unfold get_laws. destruct (select_latest ty t) as [row|]; simpl; [|discriminate].
  now intros [= ->].
Qed.

Lemma get_laws_missing t ty :
  rows_for ty t = [] ->
  get_laws t ty = Http.mkResponse 404 (Http.Json [("error", "Lei não encontrada")]).
Proof. unfold get_laws, select_latest. now intros ->. Qed.

Lemma never_written_no_rows ty ws :
  last_written ty ws = None -> rows_for ty (fold_left apply_upsert ws []) = [].
Proof.
  intros H.
  assert (G : forall t, rows_for ty t = [] ->
                        rows_for ty (fold_left apply_upsert ws t) = []).
  { induction ws as [|w ws IH]; simpl; intros t E; [exact E|].
    simpl in H. destruct (last_written ty ws) eqn:L; [discriminate|].
    destruct (String.eqb_spec (w_type w) ty) as [_|N]; [discriminate|].
    apply IH; [reflexivity|]. unfold apply_upsert.
    now rewrite SqliteFacts.upsert_other. }
  now apply G.
Qed.

(** Last write wins on a table that satisfies its UNIQUE constraint: after
    two upserts of a type the second content is read and served, whatever the
    clock was; after a history of upserts, the last content written. *)
Lemma reads_last_upsert (t : table) :
  unique_law_type t ->
  (forall now1 now2 ty c1 c2,
      let t2 := upsert now2 ty c2 (upsert now1 ty c1 t) in
      option_map content (select_latest ty t2) = Some c2 /\
      get_laws t2 ty = Http.mkResponse 200 (Http.Send c2)) /\
  (forall ws ty c,
      last_written ty ws = Some c ->
      get_laws (fold_left apply_upsert ws t) ty = Http.mkResponse 200 (Http.Send c)).
Proof.
  intros U. split.
  - intros now1 now2 ty c1 c2 t2.
    assert (E : option_map content (select_latest ty t2) = Some c2).
    { subst t2. rewrite SqliteFacts.select_after_upsert
        by now apply SqliteFacts.upsert_unique.
      now rewrite String.eqb_refl. }
    split; [exact E | now apply get_laws_found].
  - intros ws ty c L. apply get_laws_found.
    rewrite SqliteFacts.select_after_history by exact U. now rewrite L.
Qed.

(** C2. Idempotent upsert: on a table that satisfies its UNIQUE constraint,
    Upsert(T, C) twice leaves exactly one row for T, holding C; and after any
    sequence of upserts the constraint still holds and no type has more than
    one row. *)
Theorem upsert_one_row_per_type (t : table) :
  unique_law_type t ->
  (forall now1 now2 ty c,
      exists i, rows_for ty (upsert now2 ty c (upsert now1 ty c t))
                = [mkRow i ty c now2]) /\
  (forall ws,
      unique_law_type (fold_left apply_upsert ws t) /\
      forall ty, List.length (rows_for ty (fold_left apply_upsert ws t)) <= 1).
Proof.
  intros U. split.
  - intros now1 now2 ty c.
    apply SqliteFacts.upsert_same. now apply SqliteFacts.upsert_unique.
  - intros ws.
    pose proof (SqliteFacts.fold_upsert_unique ws t U) as U'.
    split; [exact U' | intros ty; now apply SqliteFacts.unique_at_most_one].
Qed.

Lemma upsert_one_row_per_type_witness :
  unique_law_type [] /\
  exists i, rows_for "eleitoral" (upsert 7 "eleitoral" "c" (upsert 3 "eleitoral" "c" []))
            = [mkRow i "eleitoral" "c" 7].
Proof.
  assert (U : unique_law_type []) by constructor.
  split; [exact U|].
  apply (proj1 (upsert_one_row_per_type [] U) 3%Z 7%Z "eleitoral" "c").
Defined.

(** What the endpoint answers, by the rows of the type: none, 404 and the
    error object; some, 200 and the content of a row of the type with the
    greatest [last_updated] (of the row, under the UNIQUE constraint). *)
Lemma query_contract (t : table) (ty : string) :
  (rows_for ty t = [] ->
     select_latest ty t = None /\
     get_laws t ty = Http.mkResponse 404 (Http.Json [("error", "Lei não encontrada")])) /\
  (forall ws, last_written ty ws = None ->
     get_laws (fold_left apply_upsert ws []) ty
     = Http.mkResponse 404 (Http.Json [("error", "Lei não encontrada")])) /\
  (rows_for ty t <> [] ->
     exists row, In row t /\ law_type row = ty /\
       (forall r, In r t -> law_type r = ty -> (last_updated r <= last_updated row)%Z) /\
       get_laws t ty = Http.mkResponse 200 (Http.Send (content row))) /\
  (forall row, unique_law_type t -> In row t -> law_type row = ty ->
     get_laws t ty = Http.mkResponse 200 (Http.Send (content row))).
Proof.
  split; [|split; [|split]].
  - intros E. split; [|now apply get_laws_missing].
    unfold select_latest. now rewrite E.
  - intros ws L. apply get_laws_missing. now apply never_written_no_rows.
  - intros N. unfold get_laws, select_latest.
    pose proof (SqliteFacts.latest_spec (rows_for ty t)) as S.
    destruct (latest (rows_for ty t)) as [m|]; [|contradiction].
    destruct S as [Hin Hmax]. exists m.
    apply filter_In in Hin. destruct Hin as [Hin Ht].
    apply SqliteFacts.is_type_true in Ht.
    repeat split; try assumption.
    intros r Hr Er. apply Hmax. apply filter_In. split; [exact Hr|].
    now apply SqliteFacts.is_type_true.
  - intros row U Hin <-. apply get_laws_found.
    now rewrite SqliteFacts.unique_row_is_latest.
Qed.

End StoreFacts.

(* ------------------------------------------------------------------------- *)
(** ** Traces and the retry interceptor *)

Module AxiosFacts.

Import Effects Axios.

Lemma writes_app (a b : list event) : writes (a ++ b)%list = writes a + writes b.
Proof. unfold writes. now rewrite filter_app, length_app. Qed.

Lemma waits_app (a b : list event) : waits (a ++ b)%list = (waits a ++ waits b)%list.
Proof. unfold waits. apply flat_map_app. Qed.

Lemma attempts_made_bounds o left rc t :
  1 <= attempts_made o left rc t <= S left.
Proof.
  revert rc. induction left as [|left IH]; intros rc; simpl.
  - destruct (t rc); lia.
  - destruct (t rc) as [d|e]; [lia|].
    destruct (retryCondition o e); [|lia].
    specialize (IH (S rc)). lia.
Qed.

(** The outcome of a request is the outcome of the last attempt it made. *)
Lemma attempt_outcome o left rc t :
  snd (attempt o left rc t) = t (rc + attempts_made o left rc t - 1).
Proof.
  revert rc. induction left as [|left IH]; intros rc; simpl.
  - destruct (t rc) eqn:E; simpl; rewrite Nat.add_sub; now rewrite E.
  - destruct (t rc) as [d|e] eqn:E; simpl.
    + rewrite Nat.add_sub. now rewrite E.
    + destruct (retryCondition o e).
      * destruct (retryDelay o (S rc)) as [printed ms].
        specialize (IH (S rc)).
        destruct (attempt o left (S rc) t) as [evs r]. simpl in *.
        rewrite IH. f_equal.
        pose proof (attempts_made_bounds o left (S rc) t). lia.
      * simpl. rewrite Nat.add_sub. now rewrite E.
Qed.

(** The waits of a request: one [retryDelay] per retry, of the retry's
    number, when what [retryDelay] prints holds no wait. *)
Lemma attempt_waits o left rc t :
  (forall n, waits (fst (retryDelay o n)) = []) ->
  waits (fst (attempt o left rc t)) =
  map (fun n => snd (retryDelay o n)) (seq (S rc) (attempts_made o left rc t - 1)).
Proof.
  intros P. revert rc. induction left as [|left IH]; intros rc; simpl.
  - destruct (t rc); reflexivity.
  - destruct (t rc) as [d|e]; [reflexivity|].
    destruct (retryCondition o e); [|reflexivity].
    specialize (IH (S rc)). specialize (P (S rc)).
    destruct (retryDelay o (S rc)) as [printed ms] eqn:D.
    destruct (attempt o left (S rc) t) as [evs r]. simpl in *.
    rewrite !waits_app, P, IH. simpl.
    pose proof (attempts_made_bounds o left (S rc) t) as B.
    destruct (attempts_made o left (S rc) t) as [|m]; [lia|].
    rewrite Nat.sub_0_r. simpl. now rewrite D, Nat.sub_0_r.
Qed.

Lemma attempt_no_writes o left rc t :
  (forall n, writes (fst (retryDelay o n)) = 0) ->
  writes (fst (attempt o left rc t)) = 0.
Proof.
  intros P. revert rc. induction left as [|left IH]; intros rc; simpl.
  - destruct (t rc); reflexivity.
  - destruct (t rc) as [d|e]; [reflexivity|].
    destruct (retryCondition o e); [|reflexivity].
    specialize (IH (S rc)). specialize (P (S rc)).
    destruct (retryDelay o (S rc)) as [printed ms].
    destruct (attempt o left (S rc) t) as [evs r]. simpl in *.
    rewrite !writes_app, P, IH. reflexivity.
Qed.

(** [k] rejections that may be retried, within the budget, are all retried. *)
Lemma attempts_after_rejections o left rc t k :
  k <= left ->
  (forall n, n < k -> exists e, t (rc + n) = Rejected e /\ retryCondition o e = true) ->
  attempts_made o left rc t = k + attempts_made o (left - k) (rc + k) t.
Proof.
  revert left rc. induction k as [|k IH]; intros left rc L R.
  - now rewrite Nat.sub_0_r, Nat.add_0_r.
  - destruct left as [|left]; [lia|]. simpl.
    destruct (R 0 ltac:(lia)) as (e & E & C). rewrite Nat.add_0_r in E.
    rewrite E, C. rewrite (IH left (S rc)).
    + now replace (S rc + k) with (rc + S k) by lia.
    + lia.
    + intros n Hn. destruct (R (S n) ltac:(lia)) as (e' & E' & C').
    exists e'. split; [|exact C']. now replace (S rc + n) with (rc + S n) by lia.
Qed.

End AxiosFacts.

(* ------------------------------------------------------------------------- *)
(** ** Fetching and updating, current revision *)

Module ServerFacts.

Import Effects Sqlite Part000.

Section Facts.

Variable he : He.tables.
Variable load : string -> Dom.document.
Variable iconv_decode : list Byte.byte -> string.
Variable isNetworkOrIdempotentRequestError : Axios.error -> bool.

Local Abbreviation options := (retry_options isNetworkOrIdempotentRequestError).
Local Abbreviation fetch :=
  (fetchAndParseData he load iconv_decode isNetworkOrIdempotentRequestError).
Local Abbreviation update :=
  (updateLaw he load iconv_decode isNetworkOrIdempotentRequestError).
Local Abbreviation schedule :=
  (scheduleLawUpdates he load iconv_decode isNetworkOrIdempotentRequestError).
Local Abbreviation fetched :=
  (Part000.fetched he load iconv_decode isNetworkOrIdempotentRequestError).
Local Abbreviation update_events :=
  (Part000.update_events he load iconv_decode isNetworkOrIdempotentRequestError).
Local Abbreviation update_write :=
  (Part000.update_write he load iconv_decode isNetworkOrIdempotentRequestError).
Local Abbreviation cycle_writes :=
  (Part000.cycle_writes he load iconv_decode isNetworkOrIdempotentRequestError).

Lemma econnreset_is_retried e :
  Axios.code e = Some "ECONNRESET" -> Axios.retryCondition options e = true.
Proof. simpl. intros ->. simpl. apply orb_true_r. Qed.

Lemma fetch_waits t url :
  waits (fst (fetch t url)) =
  map (fun n => n * 2000) (seq 1 (Axios.attempts_made options 3 0 t - 1)).
Proof.
  unfold fetchAndParseData, Axios.get.
  pose proof (AxiosFacts.attempt_waits options 3 0 t (fun _ => eq_refl)) as W.
  change (Axios.retries options) with 3.
  destruct (Axios.attempt options 3 0 t) as [evs [d|e]]; cbn [fst snd] in *.
  - exact W.
  - rewrite AxiosFacts.waits_app, W. simpl. apply app_nil_r.
Qed.

Lemma fetch_no_writes t url : writes (fst (fetch t url)) = 0.
Proof.
  unfold fetchAndParseData, Axios.get.
  pose proof (AxiosFacts.attempt_no_writes options 3 0 t (fun _ => eq_refl)) as W.
  change (Axios.retries options) with 3.
  destruct (Axios.attempt options 3 0 t) as [evs [d|e]]; cbn [fst snd] in *.
  - exact W.
  - now rewrite AxiosFacts.writes_app, W.
Qed.

Lemma fetch_result t url :
  snd (fetch t url) =
  match t (Axios.attempts_made options 3 0 t - 1) with
  | Axios.Resolved data => Some (parseHTML he load (iconv_decode data))
  | Axios.Rejected _ => None
  end.
Proof.
  unfold fetchAndParseData, Axios.get.
  pose proof (AxiosFacts.attempt_outcome options 3 0 t) as O.
  rewrite Nat.add_0_l in O.
  change (Axios.retries options) with 3.
  destruct (Axios.attempt options 3 0 t) as [evs r].
  cbn [snd] in O. rewrite <- O. now destruct r.
Qed.

Lemma update_db c ty url st :
  db (update c ty url st) = fold_left apply_upsert (update_write c ty url) (db st).
Proof.
  unfold updateLaw, Part000.update_write, Part000.fetched.
  destruct (fetch (attempts c) url) as [evs [text|]]; simpl; [|reflexivity].
  destruct (text =? ""); reflexivity.
Qed.

Lemma update_trace c ty url st :
  trace (update c ty url st) = (trace st ++ update_events c ty url)%list.
Proof.
  unfold updateLaw, Part000.update_events, Part000.fetched.
  destruct (fetch (attempts c) url) as [evs [text|]]; simpl.
  - destruct (text =? ""); simpl; rewrite <- !app_assoc; reflexivity.
  - rewrite <- !app_assoc. reflexivity.
Qed.

Lemma update_events_writes c ty url :
  writes (update_events c ty url) = List.length (update_write c ty url).
Proof.
  unfold Part000.update_events, Part000.update_write.
  rewrite AxiosFacts.writes_app.
  change (writes (ConsoleLog ("Buscando " ++ ty ++ "...") :: fst (fetch (attempts c) url)))
    with (writes (fst (fetch (attempts c) url))).
  rewrite fetch_no_writes.
  destruct (fetched c url) as [text|]; [|reflexivity].
  destruct (text =? ""); reflexivity.
Qed.

(** No content, no write: the table and the count of writes stay. *)
Lemma update_without_content c ty url st :
  truthy (fetched c url) = false ->
  db (update c ty url st) = db st /\
  writes (trace (update c ty url st)) = writes (trace st).
Proof.
  intros F.
  assert (W : update_write c ty url = []).
  { unfold Part000.update_write. unfold truthy in F.
    destruct (fetched c url) as [text|]; [|reflexivity].
    destruct (text =? ""); [reflexivity | discriminate]. }
  split.
  - now rewrite update_db, W.
  - rewrite update_trace, AxiosFacts.writes_app, update_events_writes, W. simpl. lia.
Qed.

(** ** One pass over the catalogue *)

Local Abbreviation pass :=
  (for_of he load iconv_decode isNetworkOrIdempotentRequestError).

Lemma pass_db calls i laws st :
  db (pass calls i laws st) = fold_left apply_upsert (cycle_writes calls i laws) (db st).
Proof.
  revert i st. induction laws as [|law rest IH]; intros i st; simpl; [reflexivity|].
  rewrite IH, fold_left_app. simpl. now rewrite update_db.
Qed.

(** The trace of a pass extends the trace before it, and its writes are the
    pass's writes. *)
Lemma pass_trace calls i laws st :
  exists evs,
    trace (pass calls i laws st) = (trace st ++ evs)%list /\
    writes evs = List.length (cycle_writes calls i laws) /\
    (forall w, In w (cycle_writes calls i laws) -> In (DbRun (w_type w) (w_content w)) evs) /\
    (forall j law, nth_error laws j = Some law ->
       fetched (calls (i + j)) (url law) = None ->
       In (ConsoleLog ("❌ Falha ao obter conteúdo para " ++ type law
                       ++ " após todas as tentativas.")) evs).
Proof.
  revert i st. induction laws as [|law rest IH]; intros i st; simpl.
  - exists []. rewrite app_nil_r. repeat split; try easy.
    intros [|j] law H; discriminate.
  - destruct (IH (S i)
      (emit [ConsoleLog "...pausa de 2 segundos..."; Timer 2000]
         (update (calls i) (type law) (url law) st))) as (evs & T & W & D & L).
    exists (update_events (calls i) (type law) (url law)
            ++ [ConsoleLog "...pausa de 2 segundos..."; Timer 2000] ++ evs)%list.
    split; [|split; [|split]].
    + rewrite T. simpl trace. rewrite update_trace, <- !app_assoc. reflexivity.
    + rewrite !AxiosFacts.writes_app, update_events_writes, W, length_app.
      change (writes [ConsoleLog "...pausa de 2 segundos..."; Timer 2000]) with 0. lia.
    + intros w Hw. apply in_app_or in Hw. destruct Hw as [Hw|Hw].
      * apply in_or_app. left. unfold Part000.update_write in Hw. unfold Part000.update_events.
        apply in_or_app. right.
        destruct (fetched (calls i) (url law)) as [text|]; [|contradiction].
        destruct (text =? ""); [contradiction|].
        destruct Hw as [<-|[]]. now left.
      * apply in_or_app. right. apply in_or_app. right. now apply D.
    + intros [|j] law' H F.
      * simpl in H. injection H as <-. rewrite Nat.add_0_r in F.
        apply in_or_app. left. unfold Part000.update_events. apply in_or_app. right.
        rewrite F. now left.
      * apply in_or_app. right. apply in_or_app. right.
        apply (L j law' H). now replace (S i + j) with (i + S j) by lia.
Qed.

Lemma last_written_app ty (a b : list write) :
  last_written ty (a ++ b)%list =
  match last_written ty b with
  | Some c => Some c
  | None => last_written ty a
  end.
Proof.
  induction a as [|w a IH]; simpl.
  - now destruct (last_written ty b).
  - rewrite IH. now destruct (last_written ty b).
Qed.

Lemma cycle_writes_types calls i laws w :
  In w (cycle_writes calls i laws) -> In (w_type w) (map type laws).
Proof.
  revert i. induction laws as [|law rest IH]; intros i; simpl; [easy|].
  intros H. apply in_app_or in H. destruct H as [H|H].
  - left. unfold Part000.update_write in H.
    destruct (fetched (calls i) (url law)) as [text|]; [|contradiction].
    destruct (text =? ""); [contradiction|]. now destruct H as [<-|[]].
  - right. now apply (IH (S i)).
Qed.

Lemma last_written_none ty ws :
  (forall w, In w ws -> w_type w <> ty) -> last_written ty ws = None.
Proof.
  induction ws as [|w ws IH]; simpl; intros H; [reflexivity|].
  rewrite IH by (intros w' Hw'; apply H; now right).
  destruct (String.eqb_spec (w_type w) ty) as [E|_]; [|reflexivity].
  exfalso. now apply (H w); [left|].
Qed.

(** With distinct types in the catalogue, the content last written for an
    entry during a pass is the one its own fetch brought. *)
Lemma pass_last_written calls i laws j law text :
  NoDup (map type laws) ->
  nth_error laws j = Some law ->
  fetched (calls (i + j)) (url law) = Some text -> text <> "" ->
  last_written (type law) (cycle_writes calls i laws) = Some text.
Proof.
  revert i j. induction laws as [|l rest IH]; intros i j U N F T.
  - destruct j; discriminate.
  - simpl in U. inversion U as [|x xs Hnin U']; subst.
    simpl. rewrite last_written_app. destruct j as [|j]; simpl in N.
    + injection N as ->. rewrite Nat.add_0_r in F.
      rewrite last_written_none.
      * unfold Part000.update_write. rewrite F.
        apply String.eqb_neq in T. rewrite T. simpl.
        now rewrite String.eqb_refl.
      * intros w Hw E. apply cycle_writes_types in Hw. congruence.
    + rewrite (IH (S i) j); trivial.
      now replace (S i + j) with (i + S j) by lia.
Qed.

Lemma rows_for_fold_other ty ws t :
  (forall w, In w ws -> w_type w <> ty) ->
  rows_for ty (fold_left apply_upsert ws t) = rows_for ty t.
Proof.
  revert t. induction ws as [|w ws IH]; simpl; intros t H; [reflexivity|].
  rewrite IH by (intros w' Hw'; apply H; now right).
  unfold apply_upsert. apply SqliteFacts.upsert_other. apply H. now left.
Qed.

(** With distinct types in the catalogue, a pass in which the entry at [k]
    got no content writes nothing to that entry's type. *)
Lemma pass_skips calls i laws k law :
  NoDup (map type laws) ->
  nth_error laws k = Some law ->
  truthy (fetched (calls (i + k)) (url law)) = false ->
  forall w, In w (cycle_writes calls i laws) -> w_type w <> type law.
Proof.
  revert i k. induction laws as [|l rest IH]; intros i k U N F w Hw.
  - destruct k; discriminate.
  - simpl in U. inversion U as [|x xs Hnin U']; subst.
    simpl in Hw. apply in_app_or in Hw. destruct k as [|k]; simpl in N.
    + injection N as ->. rewrite Nat.add_0_r in F. destruct Hw as [Hw|Hw].
      * unfold Part000.update_write in Hw. unfold truthy in F.
        destruct (fetched (calls i) (url law)) as [text|]; [|contradiction].
        destruct (text =? ""); [contradiction | discriminate].
      * apply cycle_writes_types in Hw. congruence.
    + destruct Hw as [Hw|Hw].
      * unfold Part000.update_write in Hw.
        destruct (fetched (calls i) (url l)) as [text|]; [|contradiction].
        destruct (text =? ""); [contradiction|]. destruct Hw as [<-|[]]. simpl.
        intros E. apply Hnin. rewrite E. apply in_map. eapply nth_error_In, N.
      * apply (IH (S i) k); trivial.
        now replace (S i + k) with (i + S k) by lia.
Qed.

Lemma catalogue_types_distinct : NoDup (map type lawsToUpdate).
Proof.
  simpl. repeat (constructor; [simpl; intuition discriminate|]). constructor.
Qed.

Lemma db_emit evs st : db (emit evs st) = db st.
Proof. reflexivity. Qed.

Lemma trace_emit evs st : trace (emit evs st) = (trace st ++ evs)%list.
Proof. reflexivity. Qed.

Lemma schedule_db calls st :
  db (schedule calls st) = fold_left apply_upsert (cycle_writes calls 0 lawsToUpdate) (db st).
Proof.
  unfold scheduleLawUpdates.
  rewrite db_emit, pass_db, db_emit. reflexivity.
Qed.

(** A cycle runs to its last line: its trace is the trace before it, the
    opening line, what the pass over the catalogue did, and the closing line. *)
Lemma schedule_trace calls st :
  exists evs,
    trace (schedule calls st)
    = (trace st ++ (ConsoleLog "Iniciando rotina de atualização de leis..." :: evs)
       ++ [ConsoleLog "--- Rotina de atualização concluída. Próxima em 24 horas. ---"])%list /\
    writes evs = List.length (cycle_writes calls 0 lawsToUpdate) /\
    (forall w, In w (cycle_writes calls 0 lawsToUpdate) ->
       In (DbRun (w_type w) (w_content w)) evs) /\
    (forall j law, nth_error lawsToUpdate j = Some law ->
       fetched (calls j) (url law) = None ->
       In (ConsoleLog ("❌ Falha ao obter conteúdo para " ++ type law
                       ++ " após todas as tentativas.")) evs).
Proof.
  unfold scheduleLawUpdates.
  destruct (pass_trace calls 0 lawsToUpdate
              (emit [ConsoleLog "Iniciando rotina de atualização de leis..."] st))
    as (evs & T & W & D & L).
  exists evs. split; [|repeat split; assumption].
  rewrite trace_emit, T, trace_emit, <- !app_assoc. reflexivity.
Qed.

Lemma cycle_writes_all_but_one calls i laws k :
  k < List.length laws ->
  (forall j law, nth_error laws j = Some law ->
     truthy (fetched (calls (i + j)) (url law)) = negb (j =? k)%nat) ->
  S (List.length (cycle_writes calls i laws)) = List.length laws.
Proof.
  assert (All : forall laws i,
             (forall j law, nth_error laws j = Some law ->
                truthy (fetched (calls (i + j)) (url law)) = true) ->
             List.length (cycle_writes calls i laws) = List.length laws).
  { clear. induction laws as [|l rest IH]; intros i H; simpl; [reflexivity|].
    rewrite length_app, (IH (S i)).
    - specialize (H 0 l eq_refl). rewrite Nat.add_0_r in H.
      unfold Part000.update_write. unfold truthy in H.
      destruct (fetched (calls i) (url l)) as [text|]; [|discriminate].
      now destruct (text =? "").
    - intros j law N. specialize (H (S j) law N).
      now replace (S i + j) with (i + S j) by lia. }
  revert i k. induction laws as [|l rest IH]; intros i k K H; simpl in *; [lia|].
  rewrite length_app. destruct k as [|k].
  - pose proof (H 0 l eq_refl) as H0. rewrite Nat.add_0_r in H0. simpl in H0.
    assert (E : update_write (calls i) (type l) (url l) = []).
    { unfold Part000.update_write. unfold truthy in H0.
      destruct (fetched (calls i) (url l)) as [text|]; [|reflexivity].
      destruct (text =? ""); [reflexivity | discriminate]. }
    rewrite E. simpl. f_equal. apply All.
    intros j law N. specialize (H (S j) law N). simpl in H.
    now replace (S i + j) with (i + S j) by lia.
  - pose proof (H 0 l eq_refl) as H0. rewrite Nat.add_0_r in H0. simpl in H0.
    assert (E : List.length (update_write (calls i) (type l) (url l)) = 1).
    { unfold Part000.update_write. unfold truthy in H0.
      destruct (fetched (calls i) (url l)) as [text|]; [|discriminate].
      now destruct (text =? ""). }
    rewrite E. simpl. f_equal. apply (IH (S i) k); [lia|].
    intros j law N. specialize (H (S j) law N). simpl in H.
    now replace (S i + j) with (i + S j) by lia.
Qed.

(** Three rejections that may be retried and a fourth rejection: four
    attempts, and no content. *)
Lemma fetch_exhausted t url :
  (forall n, n < 3 -> exists e, t n = Axios.Rejected e /\ Axios.retryCondition options e = true) ->
  (exists e, t 3 = Axios.Rejected e) ->
  Axios.attempts_made options 3 0 t = 4 /\ snd (fetch t url) = None.
Proof.
  intros R [e4 E4].
  assert (M : Axios.attempts_made options 3 0 t = 4).
  { rewrite (AxiosFacts.attempts_after_rejections options 3 0 t 3); [|lia|exact R].
    simpl. now rewrite E4. }
  split; [exact M|]. rewrite fetch_result, M. simpl. now rewrite E4.
Qed.

(** Rejections that may be retried, then an answer within the budget: the
    normalized text of that answer. *)
Lemma fetch_resolved t url k data :
  k <= 3 ->
  (forall n, n < k -> exists e, t n = Axios.Rejected e /\ Axios.retryCondition options e = true) ->
  t k = Axios.Resolved data ->
  Axios.attempts_made options 3 0 t = S k /\
  snd (fetch t url) = Some (parseHTML he load (iconv_decode data)).
Proof.
  intros K R E.
  assert (M : Axios.attempts_made options 3 0 t = S k).
  { rewrite (AxiosFacts.attempts_after_rejections options 3 0 t k); [|lia|exact R].
    rewrite Nat.add_0_l. destruct (3 - k); simpl; rewrite E; lia. }
  split; [exact M|]. rewrite fetch_result, M.
  rewrite Nat.sub_succ, Nat.sub_0_r. now rewrite E.
Qed.


(** C7. Cycle resilience: in a cycle where the fetch of one catalogue entry
    gives null and every other entry's fetch gives content, every other entry
    is written (a write statement with its content is in the trace, and the
    endpoint then serves that content), the cycle makes ten writes, prints
    the failure line of the failed entry, leaves that entry's rows as they
    were and ends with its closing line. *)
Theorem cycle_resilience (calls : nat -> call) (st : state) (k : nat) (failed : law) :
  unique_law_type (db st) ->
  nth_error lawsToUpdate k = Some failed ->
  fetched (calls k) (url failed) = None ->
  (forall j law, j <> k -> nth_error lawsToUpdate j = Some law ->
     exists text, fetched (calls j) (url law) = Some text /\ text <> "") ->
  let st' := schedule calls st in
  (forall j law, j <> k -> nth_error lawsToUpdate j = Some law ->
     exists text, fetched (calls j) (url law) = Some text /\
       In (DbRun (type law) text) (trace st') /\
       get_laws (db st') (type law) = Http.mkResponse 200 (Http.Send text)) /\
  writes (trace st') = writes (trace st) + 10 /\
  In (ConsoleLog ("❌ Falha ao obter conteúdo para " ++ type failed
                  ++ " após todas as tentativas.")) (trace st') /\
  rows_for (type failed) (db st') = rows_for (type failed) (db st) /\
  exists evs,
    trace st' = (trace st ++ evs
                 ++ [ConsoleLog "--- Rotina de atualização concluída. Próxima em 24 horas. ---"])%list.
Proof.
  intros U N F G st'. subst st'.
  destruct (schedule_trace calls st) as (evs & T & W & D & L).
  split; [|split; [|split; [|split]]].
  - intros j law J Nj. destruct (G j law J Nj) as (text & Fj & Tj).
    exists text. split; [exact Fj|].
    assert (LW : last_written (type law) (cycle_writes calls 0 lawsToUpdate) = Some text).
    { apply (pass_last_written calls 0 lawsToUpdate j law text);
        [apply catalogue_types_distinct | exact Nj | exact Fj | exact Tj]. }
    split.
    + rewrite T. apply in_or_app. right. apply in_or_app. left. right.
      assert (Hw : exists now, In (mkWrite now (type law) text)
                                  (cycle_writes calls 0 lawsToUpdate)).
      { clear -LW. induction (cycle_writes calls 0 lawsToUpdate) as [|w ws IH];
          simpl in LW; [discriminate|].
        destruct (last_written (type law) ws) as [c|].
        - destruct (IH LW) as [now H]. exists now. now right.
        - destruct (String.eqb_spec (w_type w) (type law)) as [E|_]; [|discriminate].
          injection LW as <-. exists (w_now w). left. destruct w. simpl in *. now subst. }
      destruct Hw as [now Hw]. exact (D _ Hw).
    + apply StoreFacts.get_laws_found.
      rewrite schedule_db, SqliteFacts.select_after_history by exact U.
      now rewrite LW.
  - rewrite T, !AxiosFacts.writes_app.
    change (writes (ConsoleLog "Iniciando rotina de atualização de leis..." :: evs))
      with (writes evs).
    rewrite W.
    change (writes [ConsoleLog "--- Rotina de atualização concluída. Próxima em 24 horas. ---"])
      with 0.
    assert (C : S (List.length (cycle_writes calls 0 lawsToUpdate))
                = List.length lawsToUpdate).
    { apply (cycle_writes_all_but_one calls 0 lawsToUpdate k).
      - apply nth_error_Some. congruence.
      - intros j law Nj. simpl. destruct (Nat.eqb_spec j k) as [->|J]; simpl.
        + assert (law = failed) by congruence. subst law. now rewrite F.
        + destruct (G j law J Nj) as (text & Fj & Tj). rewrite Fj. simpl.
          apply String.eqb_neq in Tj. now rewrite Tj. }
    change (List.length lawsToUpdate) with 11 in C. lia.
  - rewrite T. apply in_or_app. right. apply in_or_app. left. right.
    now apply (L k failed).
  - rewrite schedule_db. apply rows_for_fold_other.
    apply (pass_skips calls 0 lawsToUpdate k failed);
      [apply catalogue_types_distinct | exact N | simpl; now rewrite F].
  - eexists. exact T.
Qed.

(** Two updates of a type that both bring content: the endpoint then sends
    the second content. *)
Lemma updates_read_back c1 c2 ty url1 url2 st text1 text2 :
  unique_law_type (db st) ->
  fetched c1 url1 = Some text1 -> text1 <> "" ->
  fetched c2 url2 = Some text2 -> text2 <> "" ->
  get_laws (db (update c2 ty url2 (update c1 ty url1 st))) ty
  = Http.mkResponse 200 (Http.Send text2).
Proof.
  intros U F1 T1 F2 T2. apply StoreFacts.get_laws_found.
  rewrite !update_db. unfold Part000.update_write. rewrite F1, F2.
  apply String.eqb_neq in T1, T2. rewrite T1, T2. simpl fold_left.
  unfold apply_upsert. simpl.
  rewrite SqliteFacts.select_after_upsert by now apply SqliteFacts.upsert_unique.
  now rewrite String.eqb_refl.
Qed.

(** C9. Stale entry kept: when the fetch of a catalogue entry brings no
    content (as it does when its four attempts are rejected), the update of
    that entry runs no write statement and leaves the table as it was, and
    after the whole cycle the rows of that entry's type, hence the row the
    query reads, its content and its [last_updated], are what they were
    before the cycle; the cycle goes on to its closing line. *)
Theorem stale_entry_kept (calls : nat -> call) (st : state) (k : nat) (entry : law) :
  nth_error lawsToUpdate k = Some entry ->
  truthy (fetched (calls k) (url entry)) = false ->
  (forall st0,
     db (update (calls k) (type entry) (url entry) st0) = db st0 /\
     writes (trace (update (calls k) (type entry) (url entry) st0)) = writes (trace st0)) /\
  rows_for (type entry) (db (schedule calls st)) = rows_for (type entry) (db st) /\
  select_latest (type entry) (db (schedule calls st)) = select_latest (type entry) (db st) /\
  (exists evs,
     trace (schedule calls st)
     = (trace st ++ evs
        ++ [ConsoleLog "--- Rotina de atualização concluída. Próxima em 24 horas. ---"])%list) /\
  ((forall n, n < 3 -> exists e, attempts (calls k) n = Axios.Rejected e
                                 /\ Axios.retryCondition options e = true) ->
   (exists e, attempts (calls k) 3 = Axios.Rejected e) ->
   fetched (calls k) (url entry) = None).
Proof.
  intros N F.
  assert (R : rows_for (type entry) (db (schedule calls st)) = rows_for (type entry) (db st)).
  { rewrite schedule_db. apply rows_for_fold_other.
    apply (pass_skips calls 0 lawsToUpdate k entry);
      [apply catalogue_types_distinct | exact N | exact F]. }
  split; [|split; [|split; [|split]]].
  - intros st0. now apply update_without_content.
  - exact R.
  - unfold select_latest. now rewrite R.
  - destruct (schedule_trace calls st) as (evs & T & _). eexists. exact T.
  - intros Rj R3. apply (fetch_exhausted (attempts (calls k)) (url entry) Rj R3).
Qed.

(** ** Contents are never empty *)

Lemma upsert_nonempty now ty c t :
  c <> "" -> nonempty_contents t -> nonempty_contents (upsert now ty c t).
Proof.
  unfold nonempty_contents, upsert, insert. intros C H.
  destruct (existsb (is_type ty) t).
  - induction H as [|r t Hr Ht IH]; simpl; [constructor|].
    destruct (is_type ty r); constructor; assumption.
  - apply Forall_app. split; [exact H | now repeat constructor].
Qed.

Lemma update_write_nonempty c ty url w :
  In w (update_write c ty url) -> w_content w <> "".
Proof.
  unfold Part000.update_write. destruct (fetched c url) as [text|]; [|contradiction].
  destruct (String.eqb_spec text "") as [|T]; [contradiction|].
  now intros [<-|[]].
Qed.

Lemma update_nonempty c ty url st :
  nonempty_contents (db st) -> nonempty_contents (db (update c ty url st)).
Proof.
  intros H. rewrite update_db.
  pose proof (update_write_nonempty c ty url) as W.
  revert H. generalize (db st).
  induction (update_write c ty url) as [|w ws IH]; intros t H; simpl; [exact H|].
  apply IH.
  - intros w' Hw'. apply W. now right.
  - apply upsert_nonempty; [apply W; now left | exact H].
Qed.

Lemma update_events_nonempty c ty url ty' text :
  In (DbRun ty' text) (update_events c ty url) -> text <> "".
Proof.
  unfold Part000.update_events. intros H. apply in_app_or in H. destruct H as [H|H].
  - exfalso. destruct H as [H|H]; [discriminate|].
    unfold fetchAndParseData, Axios.get in H.
    change (Axios.retries options) with 3 in H.
    assert (A : forall left rc, ~ In (DbRun ty' text)
                  (fst (Axios.attempt options left rc (attempts c)))).
    { induction left as [|left IH]; intros rc; simpl.
      - destruct (attempts c rc); simpl; tauto.
      - destruct (attempts c rc) as [d|e]; simpl; [tauto|].
        destruct (isNetworkOrIdempotentRequestError e
                  || match Axios.code e with Some c0 => c0 =? "ECONNRESET" | None => false end);
          simpl; [|tauto].
        specialize (IH (S rc)).
        destruct (Axios.attempt options left (S rc) (attempts c)) as [evs r].
        simpl in *. intros [X|[X|X]]; try discriminate. now apply IH. }
    specialize (A 3 0).
    destruct (Axios.attempt options 3 0 (attempts c)) as [evs [d|e]]; simpl in *.
    + now apply A.
    + apply in_app_or in H. destruct H as [H|[H|[]]]; [now apply A | discriminate].
  - destruct (fetched c url) as [t|].
    + destruct (String.eqb_spec t "") as [|T].
      * destruct H as [H|[]]. discriminate.
      * destruct H as [H|[H|[]]]; [|discriminate]. now injection H as _ <-.
    + destruct H as [H|[]]. discriminate.
Qed.

(** ** The event loop *)

Local Abbreviation advance :=
  (resume he load iconv_decode isNetworkOrIdempotentRequestError).
Local Abbreviation next :=
  (step he load iconv_decode isNetworkOrIdempotentRequestError).
Local Abbreviation loop :=
  (run he load iconv_decode isNetworkOrIdempotentRequestError).

Lemma resume_facts i c st tasks :
  let (st', tasks') := advance i c st tasks in
  (nonempty_contents (db st) -> nonempty_contents (db st')) /\
  (unique_law_type (db st) -> unique_law_type (db st')) /\
  ((forall ty text, In (DbRun ty text) (trace st) -> text <> "") ->
   forall ty text, In (DbRun ty text) (trace st') -> text <> "") /\
  writes (trace st') + pending tasks' <= writes (trace st) + pending tasks /\
  List.length tasks' <= List.length tasks.
Proof.
  revert i. induction tasks as [|task others IH]; intros i; simpl.
  - repeat split; auto.
  - destruct i as [|j].
    + destruct task as [|law rest].
      * repeat split; auto; simpl; lia.
      * assert (Hn : nonempty_contents (db st) ->
                     nonempty_contents (db (update c (type law) (url law) st)))
          by apply update_nonempty.
        assert (Hu : unique_law_type (db st) ->
                     unique_law_type (db (update c (type law) (url law) st))).
        { rewrite update_db. apply SqliteFacts.fold_upsert_unique. }
        assert (Hw : writes (trace (update c (type law) (url law) st))
                     <= S (writes (trace st))).
        { rewrite update_trace, AxiosFacts.writes_app, update_events_writes.
          unfold Part000.update_write. destruct (fetched c (url law)) as [text|]; simpl; [|lia].
          destruct (text =? ""); simpl; lia. }
        assert (Hd : (forall ty text, In (DbRun ty text) (trace st) -> text <> "") ->
                     forall ty text,
                       In (DbRun ty text) (trace (update c (type law) (url law) st)) ->
                       text <> "").
        { intros P ty text H. rewrite update_trace in H.
          apply in_app_or in H. destruct H as [H|H]; [now apply (P ty)|].
          now apply update_events_nonempty in H. }
        destruct rest as [|law' rest'];
          rewrite ?db_emit, ?trace_emit, ?AxiosFacts.writes_app;
          change (writes [ConsoleLog "...pausa de 2 segundos..."; Timer 2000]) with 0;
          change (writes [ConsoleLog "--- Rotina de atualização concluída. Próxima em 24 horas. ---"])
            with 0;
          (split; [exact Hn|]; split; [exact Hu|]; split;
           [|split; [unfold pending; cbn [fold_right List.length]; lia
                    | cbn [List.length]; lia]]).
        -- intros P ty text H.
           apply in_app_or in H. destruct H as [H|[H|[]]]; [|discriminate].
           apply in_app_or in H. destruct H as [H|[H|[H|[]]]]; try discriminate.
           now apply (Hd P ty).
        -- intros P ty text H.
           apply in_app_or in H. destruct H as [H|[H|[H|[]]]]; try discriminate.
           now apply (Hd P ty).
    + specialize (IH j). destruct (advance j c st others) as [st' others'].
      destruct IH as (Hn & Hu & Hd & Hw & Hl).
      repeat split; auto; simpl; lia.
Qed.

Lemma step_facts s t :
  (nonempty_contents (db (process s)) -> nonempty_contents (db (process (next s t)))) /\
  (unique_law_type (db (process s)) -> unique_law_type (db (process (next s t)))) /\
  ((forall ty text, In (DbRun ty text) (trace (process s)) -> text <> "") ->
   forall ty text, In (DbRun ty text) (trace (process (next s t))) -> text <> "") /\
  writes (trace (process (next s t))) + pending (running (next s t))
  <= writes (trace (process s)) + pending (running s)
     + match t with Fire => List.length lawsToUpdate | Resume _ _ => 0 end.
Proof.
  destruct t as [|i c]; unfold step.
  - cbn [process running]. rewrite db_emit, trace_emit, AxiosFacts.writes_app.
    repeat split; auto.
    + intros P ty text H. apply in_app_or in H.
      destruct H as [H|[H|[]]]; [now apply (P ty) | discriminate].
    + assert (E : forall a b, pending (a ++ [b])%list = pending a + List.length b).
      { induction a as [|x a IH]; intros b; simpl; [lia | rewrite IH; lia]. }
      rewrite E.
      change (writes [ConsoleLog "Iniciando rotina de atualização de leis..."]) with 0.
      lia.
  - pose proof (resume_facts i c (process s) (running s)) as R.
    destruct (advance i c (process s) (running s)) as [st' tasks'].
    cbn [process running]. destruct R as (Hn & Hu & Hd & Hw & _).
    repeat split; auto. lia.
Qed.

Lemma run_facts ticks s :
  (nonempty_contents (db (process s)) -> nonempty_contents (db (process (loop ticks s)))) /\
  (unique_law_type (db (process s)) -> unique_law_type (db (process (loop ticks s)))) /\
  ((forall ty text, In (DbRun ty text) (trace (process s)) -> text <> "") ->
   forall ty text, In (DbRun ty text) (trace (process (loop ticks s))) -> text <> "") /\
  writes (trace (process (loop ticks s))) + pending (running (loop ticks s))
  <= writes (trace (process s)) + pending (running s)
     + List.length lawsToUpdate * fires ticks.
Proof.
  revert s. induction ticks as [|t ticks IH]; intros s; unfold run; simpl fold_left.
  - repeat split; auto. simpl. lia.
  - destruct (step_facts s t) as (Hn & Hu & Hd & Hw).
    destruct (IH (next s t)) as (Hn' & Hu' & Hd' & Hw'). unfold run in *.
    split; [tauto|]. split; [tauto|].
    split; [intros P; apply Hd'; now apply Hd|].
    etransitivity; [exact Hw'|].
    change (List.length lawsToUpdate) with 11 in *.
    unfold fires in *. destruct t; simpl filter; simpl List.length; lia.
Qed.

(** Whatever the triggers and the interleaving, the table keeps one row per
    type. *)
Lemma run_keeps_unique ticks s ty :
  unique_law_type (db (process s)) ->
  List.length (rows_for ty (db (process (loop ticks s)))) <= 1.
Proof.
  intros U. apply SqliteFacts.unique_at_most_one. now apply run_facts.
Qed.

(** One invocation alone in the loop is [scheduleLawUpdates] run from its
    first line to its last. *)
Lemma run_alone calls st :
  loop (Fire :: map (fun i => Resume 0 (calls i)) (seq 0 (List.length lawsToUpdate)))
       (mkSystem st [])
  = mkSystem (schedule calls st) [].
Proof. reflexivity. Qed.

(** C10. Contents are never empty: from a table whose contents are all
    non-empty (the empty table of a first start, for one), whatever the
    triggers and the order in which the running cycles proceed, every row of
    the table has non-empty content, every write statement that was run
    carried non-empty content, and whenever the endpoint answers 200 the body
    it sends is not the empty string; a fetch that normalizes to the empty
    string leaves the table as it was. *)
Theorem stored_content_never_empty (ticks : list tick) (s : system) :
  nonempty_contents (db (process s)) ->
  (forall ty text, In (DbRun ty text) (trace (process s)) -> text <> "") ->
  let s' := loop ticks s in
  nonempty_contents (db (process s')) /\
  (forall ty text, In (DbRun ty text) (trace (process s')) -> text <> "") /\
  (forall ty text,
     get_laws (db (process s')) ty = Http.mkResponse 200 (Http.Send text) -> text <> "") /\
  (forall c ty url st, fetched c url = Some "" -> db (update c ty url st) = db st).
Proof.
  intros Hn Hd s'. subst s'.
  destruct (run_facts ticks s) as (Rn & _ & Rd & _).
  split; [now apply Rn|]. split; [now apply Rd|]. split.
  - intros ty text G. unfold get_laws in G.
    destruct (select_latest ty (db (process (loop ticks s)))) as [row|] eqn:E;
      [|discriminate].
    injection G as <-. apply SqliteFacts.select_latest_in in E. destruct E as [Hin _].
    specialize (Rn Hn). unfold nonempty_contents in Rn.
    rewrite Forall_forall in Rn. now apply Rn.
  - intros c ty url st F. apply update_without_content. now rewrite F.
Qed.

(** C8, as the code has it.  There is no re-entrancy guard: every trigger
    (the call at start and each tick of the 24-hour interval) starts a cycle
    and leaves the table alone, whether or not cycles are in progress; a
    trigger that finds none in progress leaves exactly one; the progress of a
    cycle never adds a cycle; and over any run the writes made and still to
    come are at most one catalogue's worth (11) per trigger. *)
Theorem every_trigger_starts_a_cycle (s : system) :
  running (next s Fire) = (running s ++ [lawsToUpdate])%list /\
  db (process (next s Fire)) = db (process s) /\
  (running s = [] -> running (next s Fire) = [lawsToUpdate]) /\
  (forall i c, List.length (running (next s (Resume i c))) <= List.length (running s)) /\
  (forall ticks,
     writes (trace (process (loop ticks s))) + pending (running (loop ticks s))
     <= writes (trace (process s)) + pending (running s) + 11 * fires ticks).
Proof.
  split; [reflexivity|]. split; [reflexivity|].
  split; [intros E; cbn [step running]; now rewrite E|]. split.
  - intros i c. unfold step.
    pose proof (resume_facts i c (process s) (running s)) as R.
    destruct (advance i c (process s) (running s)) as [st' tasks'].
    cbn [running]. tauto.
  - intros ticks. apply run_facts.
Qed.

(** ** The endpoint follows the writes *)

Lemma last_run_app ty (a b : list event) :
  last_run ty (a ++ b)%list =
  match last_run ty b with
  | Some c => Some c
  | None => last_run ty a
  end.
Proof.
  induction a as [|e a IH]; simpl.
  - now destruct (last_run ty b).
  - rewrite IH. now destruct (last_run ty b).
Qed.

Lemma last_run_quiet ty evs : writes evs = 0 -> last_run ty evs = None.
Proof.
  induction evs as [|e evs IH]; [reflexivity|].
  unfold writes in *. simpl. destruct e; simpl; try discriminate; intros H;
    now rewrite IH.
Qed.

Lemma update_events_last_run c ty0 url ty :
  last_run ty (update_events c ty0 url) = last_written ty (update_write c ty0 url).
Proof.
  unfold Part000.update_events, Part000.update_write.
  rewrite last_run_app.
  assert (Q : last_run ty (ConsoleLog ("Buscando " ++ ty0 ++ "...")
                           :: fst (fetch (attempts c) url)) = None).
  { apply last_run_quiet.
    change (writes (ConsoleLog ("Buscando " ++ ty0 ++ "...") :: fst (fetch (attempts c) url)))
      with (writes (fst (fetch (attempts c) url))).
    apply fetch_no_writes. }
  rewrite Q. destruct (fetched c url) as [text|]; [|reflexivity].
  destruct (text =? ""); [reflexivity|]. simpl. now destruct (ty0 =? ty).
Qed.

Lemma follows_refl st : follows st st.
Proof. exists []. split; [now rewrite app_nil_r | reflexivity]. Qed.

Lemma follows_trans a b c : follows a b -> follows b c -> follows a c.
Proof.
  intros (e1 & T1 & S1) (e2 & T2 & S2). exists (e1 ++ e2)%list. split.
  - now rewrite T2, T1, app_assoc.
  - intros ty. rewrite S2, S1, last_run_app. now destruct (last_run ty e2).
Qed.

Lemma follows_emit evs st : writes evs = 0 -> follows st (emit evs st).
Proof.
  intros Q. exists evs. split; [reflexivity|].
  intros ty. now rewrite (last_run_quiet ty evs Q).
Qed.

Lemma follows_update c ty0 url st :
  unique_law_type (db st) -> follows st (update c ty0 url st).
Proof.
  intros U. exists (update_events c ty0 url). split; [apply update_trace|].
  intros ty. rewrite update_db, SqliteFacts.select_after_history by exact U.
  now rewrite update_events_last_run.
Qed.

Lemma follows_resume i c st tasks :
  unique_law_type (db st) -> follows st (fst (advance i c st tasks)).
Proof.
  intros U. revert i. induction tasks as [|task others IH]; intros i; simpl.
  - apply follows_refl.
  - destruct i as [|j].
    + destruct task as [|law rest]; [apply follows_refl|].
      assert (F : follows st
                    (emit [ConsoleLog "...pausa de 2 segundos..."; Timer 2000]
                       (update c (type law) (url law) st))).
      { eapply follows_trans; [now apply follows_update|].
        now apply follows_emit. }
      destruct rest as [|law' rest']; simpl; [|exact F].
      eapply follows_trans; [exact F|]. now apply follows_emit.
    + specialize (IH j). now destruct (advance j c st others).
Qed.

Lemma follows_run ticks s :
  unique_law_type (db (process s)) -> follows (process s) (process (loop ticks s)).
Proof.
  revert s. induction ticks as [|t ticks IH]; intros s U; unfold run; simpl fold_left.
  - apply follows_refl.
  - assert (F : follows (process s) (process (next s t))).
    { destruct t as [|i c]; unfold step.
      - now apply follows_emit.
      - pose proof (follows_resume i c (process s) (running s) U) as R.
        now destruct (advance i c (process s) (running s)). }
    eapply follows_trans; [exact F|]. apply IH.
    now apply step_facts.
Qed.

(** C1. Freshness: on a table that satisfies its UNIQUE constraint, after
    Upsert(T, C1) and then Upsert(T, C2) the query for T reads C2 and the
    endpoint answers 200 with C2, whatever the clock was at the two writes;
    after any history of upserts the endpoint serves, for every type, the
    content of the last write to that type; and in the running server,
    whatever the triggers and the interleaving of the cycles, the endpoint
    answers for a type with the content of the last write statement that was
    run for it. *)
Theorem freshness (t : table) :
  unique_law_type t ->
  (forall now1 now2 ty c1 c2,
      let t2 := upsert now2 ty c2 (upsert now1 ty c1 t) in
      option_map content (select_latest ty t2) = Some c2 /\
      get_laws t2 ty = Http.mkResponse 200 (Http.Send c2)) /\
  (forall ws ty c,
      last_written ty ws = Some c ->
      get_laws (fold_left apply_upsert ws t) ty = Http.mkResponse 200 (Http.Send c)) /\
  (forall tasks ticks ty c,
      let s := loop ticks (mkSystem (mkState t []) tasks) in
      last_run ty (trace (process s)) = Some c ->
      get_laws (db (process s)) ty = Http.mkResponse 200 (Http.Send c)).
Proof.
  intros U. destruct (StoreFacts.reads_last_upsert t U) as [A B].
  split; [exact A|]. split; [exact B|].
  intros tasks ticks ty c s L. subst s.
  destruct (follows_run ticks (mkSystem (mkState t []) tasks) U) as (evs & T & S).
  simpl in T. rewrite T in L. apply StoreFacts.get_laws_found.
  rewrite S, L. reflexivity.
Qed.

(** C3. Not-found contract: for a type with no row the query gives nothing
    and the endpoint answers 404 with the JSON object whose only member is
    [error], of value "Lei não encontrada"; this is the case of every type
    that no write of a history named, and, in the server started on an empty
    table, of every type for which no write statement was ever run.  For a
    type with a row the endpoint answers 200 and sends the content of a
    stored row of that type, one with the greatest [last_updated]; under the
    UNIQUE constraint, of the row. *)
Theorem not_found_contract (t : table) (ty : string) :
  (rows_for ty t = [] ->
     select_latest ty t = None /\
     get_laws t ty = Http.mkResponse 404 (Http.Json [("error", "Lei não encontrada")])) /\
  (forall ws, last_written ty ws = None ->
     get_laws (fold_left apply_upsert ws []) ty
     = Http.mkResponse 404 (Http.Json [("error", "Lei não encontrada")])) /\
  (forall ticks,
     last_run ty (trace (process (loop ticks boot))) = None ->
     get_laws (db (process (loop ticks boot))) ty
     = Http.mkResponse 404 (Http.Json [("error", "Lei não encontrada")])) /\
  (rows_for ty t <> [] ->
     exists row, In row t /\ law_type row = ty /\
       (forall r, In r t -> law_type r = ty -> (last_updated r <= last_updated row)%Z) /\
       get_laws t ty = Http.mkResponse 200 (Http.Send (content row))) /\
  (forall row, unique_law_type t -> In row t -> law_type row = ty ->
     get_laws t ty = Http.mkResponse 200 (Http.Send (content row))).
Proof.
  destruct (StoreFacts.query_contract t ty) as (A & B & C & D).
  split; [exact A|]. split; [exact B|]. split; [|split; [exact C | exact D]].
  intros ticks L.
  assert (U : unique_law_type (db (process boot))) by constructor.
  destruct (follows_run ticks boot U) as (evs & T & S).
  simpl in T. rewrite T in L. specialize (S ty). rewrite L in S. simpl in S.
  unfold get_laws. now destruct (select_latest ty (db (process (loop ticks boot)))).
Qed.

End Facts.

End ServerFacts.

(* ------------------------------------------------------------------------- *)
(** ** The entity decoder *)

Module HeFacts.

Import He.

Section Facts.

Variable tb : tables.

Lemma scan_break c st a r :
  breaks c = true ->
  scan tb st (a ++ String c r) = scan tb st a ++ String c (scan tb None r).
Proof.
  unfold breaks. intros B.
  apply andb_prop in B. destruct B as [B Bamp].
  apply andb_prop in B. destruct B as [B Bsemi].
  apply andb_prop in B. destruct B as [Balnum Bhash].
  apply negb_true_iff in Bamp, Bsemi, Bhash, Balnum.
  revert st. induction a as [|x a IH]; intros st.
  - cbn [append scan]. destruct st as [buf|].
    + unfold extends. rewrite Balnum, Bhash, Bsemi, Bamp. reflexivity.
    + now rewrite Bamp.
  - cbn [append scan]. destruct st as [buf|].
    + destruct (extends buf x); [apply IH|].
      destruct (x =? ";")%char; [rewrite IH; now rewrite StrFacts.append_assoc|].
      destruct (x =? "&")%char; rewrite IH; now rewrite StrFacts.append_assoc.
    + destruct (x =? "&")%char; [apply IH|]. now rewrite IH.
Qed.

(** A [&] ends a pending reference as the end of the text does. *)
Lemma scan_amp st a r :
  scan tb st (a ++ String "&" r) = scan tb st a ++ scan tb (Some "") r.
Proof.
  revert st. induction a as [|x a IH]; intros st.
  - cbn [append scan]. destruct st as [buf|]; reflexivity.
  - cbn [append scan]. destruct st as [buf|].
    + destruct (extends buf x); [apply IH|].
      destruct (x =? ";")%char; [rewrite IH; now rewrite StrFacts.append_assoc|].
      destruct (x =? "&")%char; rewrite IH; now rewrite StrFacts.append_assoc.
    + destruct (x =? "&")%char; [apply IH|]. now rewrite IH.
Qed.

(** A name of letters and digits closed by [;] is read whole. *)
Lemma scan_name buf name r :
  forallb is_alnum (list_ascii_of_string name) = true ->
  scan tb (Some buf) (name ++ String ";" r) = close tb (buf ++ name) true ++ scan tb None r.
Proof.
  revert buf. induction name as [|x name IH]; intros buf A.
  - cbn [append scan]. unfold extends. cbn. now rewrite StrFacts.append_nil_r.
  - cbn in A. apply andb_prop in A. destruct A as [Ax A].
    cbn [append scan]. unfold extends. rewrite Ax. cbn [orb].
    rewrite IH by exact A. now rewrite StrFacts.append_assoc.
Qed.

(** A named reference of the table is replaced by its symbol, where it
    stands. *)
Lemma decode_named name symbol a b :
  forallb is_alnum (list_ascii_of_string name) = true ->
  named tb name = Some symbol ->
  decode tb (a ++ "&" ++ name ++ ";" ++ b) = decode tb a ++ symbol ++ decode tb b.
Proof.
  intros A N. unfold decode.
  change (a ++ "&" ++ name ++ ";" ++ b) with (a ++ String "&" (name ++ String ";" b)).
  rewrite scan_amp, scan_name by exact A.
  unfold close. cbn [append]. now rewrite N.
Qed.

Lemma clean_nil : clean tb "".
Proof. intros r. reflexivity. Qed.

Lemma clean_app a b : clean tb a -> clean tb b -> clean tb (a ++ b).
Proof.
  intros Ca Cb r. rewrite StrFacts.append_assoc, Ca, Cb.
  rewrite <- StrFacts.append_assoc. f_equal.
  specialize (Ca b). now rewrite Ca.
Qed.

Lemma clean_decode_app a b : clean tb a -> decode tb (a ++ b) = decode tb a ++ decode tb b.
Proof. intros C. apply C. Qed.

(** Text that ends a tag leaves nothing pending. *)
Lemma clean_gt x : clean tb (x ++ ">").
Proof.
  intros r. rewrite StrFacts.append_assoc. cbn [append].
  rewrite !(scan_break ">") by reflexivity.
  rewrite StrFacts.append_assoc. reflexivity.
Qed.

(** Text before a tag is decoded on its own. *)
Lemma decode_before_lt a r :
  decode tb (a ++ String "<" r) = decode tb a ++ decode tb (String "<" r).
Proof. unfold decode. now rewrite (scan_break "<") by reflexivity. Qed.

(** Decoding undoes the serializer's escaping. *)
Lemma decode_reference name symbol rest :
  forallb is_alnum (list_ascii_of_string name) = true ->
  named tb name = Some symbol ->
  scan tb None (String "&" (name ++ String ";" rest)) = symbol ++ scan tb None rest.
Proof.
  intros A N. cbn [scan]. rewrite scan_name by exact A.
  unfold close. cbn [append]. now rewrite N.
Qed.

Ltac read_reference R :=
  let H := fresh "H" in
  pose proof R as H; cbn [append] in H; cbn [append]; rewrite H; clear H.

Lemma decode_escape attr t r :
  knows_escapes tb -> scan tb None (Dom.escape attr t ++ r) = t ++ scan tb None r.
Proof.
  intros (Kamp & Klt & Kgt & Kquot & Knbsp).
  assert (Both : (scan tb None (Dom.escape attr t ++ r) = t ++ scan tb None r) /\
                 forall c, scan tb None (Dom.escape attr (String c t) ++ r)
                           = String c t ++ scan tb None r).
  { induction t as [|d t [IH0 IH1]].
    - split; [reflexivity|]. intros c. cbn [Dom.escape].
      destruct (Ascii.eqb_spec c "&") as [->|Namp].
      { read_reference (decode_reference "amp" "&" r eq_refl Kamp). reflexivity. }
      assert (Plain : scan tb None (String c "" ++ r) = String c "" ++ scan tb None r).
      { cbn [append scan]. apply Ascii.eqb_neq in Namp. now rewrite Namp. }
      destruct (c =? "194")%char; [exact Plain|].
      destruct attr.
      + destruct (Ascii.eqb_spec c "034") as [->|_]; [|exact Plain].
        read_reference (decode_reference "quot" Dom.dquote r eq_refl Kquot). reflexivity.
      + destruct (Ascii.eqb_spec c "<") as [->|_].
        { read_reference (decode_reference "lt" "<" r eq_refl Klt). reflexivity. }
        destruct (Ascii.eqb_spec c ">") as [->|_]; [|exact Plain].
        read_reference (decode_reference "gt" ">" r eq_refl Kgt). reflexivity.
    - split; [apply IH1|]. intros c.
      change (Dom.escape attr (String c (String d t)))
        with (if (c =? "&")%char then "&amp;" ++ Dom.escape attr (String d t)
              else if (c =? "194")%char then
                if (d =? "160")%char then "&nbsp;" ++ Dom.escape attr t
                else String c (Dom.escape attr (String d t))
              else if attr then
                if (c =? "034")%char then "&quot;" ++ Dom.escape attr (String d t)
                else String c (Dom.escape attr (String d t))
              else if (c =? "<")%char then "&lt;" ++ Dom.escape attr (String d t)
              else if (c =? ">")%char then "&gt;" ++ Dom.escape attr (String d t)
              else String c (Dom.escape attr (String d t))).
      destruct (Ascii.eqb_spec c "&") as [->|Namp].
      { read_reference (decode_reference "amp" "&" (Dom.escape attr (String d t) ++ r)
                          eq_refl Kamp).
        now rewrite IH1. }
      assert (Plain : scan tb None (String c (Dom.escape attr (String d t)) ++ r)
                      = String c (String d t) ++ scan tb None r).
      { cbn [append scan]. apply Ascii.eqb_neq in Namp. rewrite Namp.
        cbn [append] in IH1. now rewrite IH1. }
      destruct (Ascii.eqb_spec c "194") as [->|_].
      { destruct (Ascii.eqb_spec d "160") as [->|_]; [|exact Plain].
        read_reference (decode_reference "nbsp" Dom.nbsp (Dom.escape attr t ++ r)
                          eq_refl Knbsp).
        now rewrite IH0. }
      destruct attr.
      + destruct (Ascii.eqb_spec c "034") as [->|_]; [|exact Plain].
        read_reference (decode_reference "quot" Dom.dquote
                          (Dom.escape true (String d t) ++ r) eq_refl Kquot).
        now rewrite IH1.
      + destruct (Ascii.eqb_spec c "<") as [->|_].
        { read_reference (decode_reference "lt" "<" (Dom.escape false (String d t) ++ r)
                            eq_refl Klt).
          now rewrite IH1. }
        destruct (Ascii.eqb_spec c ">") as [->|_]; [|exact Plain].
        read_reference (decode_reference "gt" ">" (Dom.escape false (String d t) ++ r)
                          eq_refl Kgt).
        now rewrite IH1. }
  apply Both.
Qed.

Lemma clean_escape attr t : knows_escapes tb -> clean tb (Dom.escape attr t).
Proof.
  intros K r. rewrite decode_escape by exact K.
  pose proof (decode_escape attr t "" K) as E.
  rewrite StrFacts.append_nil_r in E. cbn [scan] in E.
  rewrite StrFacts.append_nil_r in E. now rewrite E.
Qed.

(** Text without [&] is left as it is. *)
Lemma decode_without_amp s : Str.includes "&" s = false -> decode tb s = s.
Proof.
  unfold decode. induction s as [|c s IH]; [reflexivity|].
  rewrite StrFacts.includes_unfold. cbn [String.prefix].
  destruct (Ascii.ascii_dec "&" c) as [<-|N]; [now destruct s|].
  intros H. cbn [scan].
  destruct (Ascii.eqb_spec c "&") as [->|_]; [now elim N|].
  now rewrite IH.
Qed.

End Facts.

End HeFacts.

(* ------------------------------------------------------------------------- *)
(** ** The document tree *)

Module DomFacts.

Import Dom.

Lemma existsb_flat_map {A B} (p : B -> bool) (f : A -> list B) (l : list A) :
  existsb p (flat_map f l) = existsb (fun a => existsb p (f a)) l.
Proof.
  induction l as [|a l IH]; simpl; [reflexivity|].
  now rewrite existsb_app, IH.
Qed.

Lemma existsb_map {A B} (p : B -> bool) (f : A -> B) (l : list A) :
  existsb p (map f l) = existsb (fun a => p (f a)) l.
Proof. induction l as [|a l IH]; simpl; [reflexivity | now rewrite IH]. Qed.

Lemma existsb_false_on {A} (p : A -> bool) (l : list A) :
  Forall (fun a => p a = false) l -> existsb p l = false.
Proof. induction 1 as [|a l Ha Hl IH]; simpl; [reflexivity | now rewrite Ha, IH]. Qed.

Lemma existsb_same_on {A} (p q : A -> bool) (l : list A) :
  Forall (fun a => p a = q a) l -> existsb p l = existsb q l.
Proof. induction 1 as [|a l Ha Hl IH]; simpl; [reflexivity | now rewrite Ha, IH]. Qed.

Lemma selected_name sel name x :
  In x sel -> existsb (String.eqb name) sel = false -> (name =? x) = false.
Proof.
  intros Hin E. destruct (String.eqb_spec name x) as [->|]; [|reflexivity].
  assert (T : existsb (String.eqb x) sel = true).
  { apply existsb_exists. exists x. split; [exact Hin | apply String.eqb_refl]. }
  congruence.
Qed.

(** After [$(sel).remove()] no element with a selected tag is left. *)
Lemma remove_leaves_none sel x d :
  In x sel -> has_element x (remove sel d) = false.
Proof.
  intros Hin. unfold has_element, remove. rewrite existsb_flat_map.
  apply existsb_false_on. apply Forall_forall. intros n _.
  induction n as [name attribs children IH | data | data] using node_induction;
    simpl; try reflexivity.
  destruct (existsb (String.eqb name) sel) eqn:E; [reflexivity|].
  simpl. rewrite (selected_name sel name x Hin E), existsb_flat_map. simpl.
  rewrite orb_false_r. now apply existsb_false_on.
Qed.

(** [removeAttr] changes no tag. *)
Lemma removeAttr_keeps_elements tag attr x d :
  has_element x (removeAttr tag attr d) = has_element x d.
Proof.
  unfold has_element, removeAttr. rewrite existsb_map.
  apply existsb_same_on. apply Forall_forall. intros n _.
  induction n as [name attribs children IH | data | data] using node_induction;
    simpl; try reflexivity.
  rewrite existsb_map. f_equal. now apply existsb_same_on.
Qed.

(** After [$(tag).removeAttr(attr)] no element with that tag has the
    attribute. *)
Lemma removeAttr_leaves_none tag attr d :
  has_attr tag attr (removeAttr tag attr d) = false.
Proof.
  unfold has_attr, removeAttr. rewrite existsb_map.
  apply existsb_false_on. apply Forall_forall. intros n _.
  induction n as [name attribs children IH | data | data] using node_induction;
    simpl; try reflexivity.
  rewrite existsb_map. rewrite (existsb_false_on _ children IH), orb_false_r.
  destruct (name =? tag); [|reflexivity]. simpl.
  unfold drop_attr. induction attribs as [|kv attribs IHa]; simpl; [reflexivity|].
  destruct (fst kv =? attr) eqn:E; simpl; [exact IHa | now rewrite E].
Qed.

Lemma remove_node_kept sel n :
  matches sel n = false ->
  remove_node sel n =
  [match n with
   | Element name attribs children => Element name attribs (remove sel children)
   | other => other
   end].
Proof. destruct n as [name attribs children| |]; simpl; [|reflexivity..]. now intros ->. Qed.

Lemma kept_in sel tag attr n ns :
  In n ns -> matches sel n = false ->
  In (kept sel tag attr n) (removeAttr tag attr (remove sel ns)).
Proof.
  intros Hin M. unfold removeAttr, remove, kept. apply in_map.
  apply in_flat_map. exists n. split; [exact Hin|].
  rewrite remove_node_kept by exact M. now left.
Qed.

(** A node outside the removed elements is still there afterwards, pruned
    and without the attribute. *)
Lemma occurs_kept sel tag attr blocked r0 r n ns :
  (forall name, blocked name = false -> existsb (String.eqb name) sel = false) ->
  occurs blocked r0 r n ns ->
  matches sel n = false ->
  occurs blocked r0 r (kept sel tag attr n) (removeAttr tag attr (remove sel ns)).
Proof.
  intros B O M. induction O as [r n ns Hin | r0 r n ns name attribs children Hin Hb O IH].
  - apply occurs_here. now apply kept_in.
  - apply (occurs_below blocked r0 r _ _ name
             (if name =? tag then drop_attr attr attribs else attribs)
             (removeAttr tag attr (remove sel children))).
    + apply (kept_in sel tag attr (Element name attribs children) ns Hin).
      simpl. now apply B.
    + exact Hb.
    + now apply IH.
Qed.

(** ** Serialization *)

Lemma concat_cons (x : string) (xs : list string) :
  String.concat "" (x :: xs) = x ++ String.concat "" xs.
Proof. destruct xs; simpl; [now rewrite StrFacts.append_nil_r | reflexivity]. Qed.

Lemma concat_app (a b : list string) :
  String.concat "" (a ++ b)%list = String.concat "" a ++ String.concat "" b.
Proof.
  induction a as [|x a IH]; [reflexivity|].
  change ((x :: a) ++ b)%list with (x :: (a ++ b))%list.
  now rewrite !concat_cons, IH, StrFacts.append_assoc.
Qed.

Lemma html_split (f : node -> string) n ns :
  In n ns ->
  exists before after,
    String.concat "" (map f ns)
    = String.concat "" (map f before) ++ f n ++ String.concat "" (map f after).
Proof.
  intros Hin. apply in_split in Hin. destruct Hin as (l1 & l2 & ->).
  exists l1, l2. now rewrite map_app, concat_app, map_cons, concat_cons.
Qed.

Lemma html_element raw name attribs children :
  is_void name = false ->
  html_node raw (Element name attribs children)
  = (("<" ++ name ++ html_attrs attribs) ++ ">")
    ++ String.concat "" (map (html_node (is_raw name)) children)
    ++ String "<" ("/" ++ name ++ ">").
Proof.
  intros V. cbn [html_node]. rewrite V.
  cbn [append]. f_equal. rewrite !StrFacts.append_assoc. reflexivity.
Qed.

Section Decoding.

Variable tb : He.tables.
Hypothesis known : He.knows_escapes tb.

(** Outside raw text, what a node serializes to leaves no reference
    pending. *)
Lemma html_node_clean n : He.clean tb (html_node false n).
Proof.
  destruct n as [name attribs children | data | data]; cbn [html_node].
  - destruct (is_void name).
    + rewrite StrFacts.append_nil_r.
      change ("<" ++ name ++ html_attrs attribs ++ ">")
        with (String "<" (name ++ html_attrs attribs ++ ">")).
      replace (String "<" (name ++ html_attrs attribs ++ ">"))
        with (String "<" (name ++ html_attrs attribs) ++ ">")
        by StrFacts.reassociate.
      apply HeFacts.clean_gt.
    + set (kids := String.concat "" (map (html_node (is_raw name)) children)).
      replace ("<" ++ name ++ html_attrs attribs ++ ">" ++ kids ++ "</" ++ name ++ ">")
        with (("<" ++ name ++ html_attrs attribs ++ ">" ++ kids ++ "</" ++ name) ++ ">")
        by StrFacts.reassociate.
      apply HeFacts.clean_gt.
  - now apply HeFacts.clean_escape.
  - change ("<!--" ++ data ++ "-->") with (String "<" ("!--" ++ data ++ "-->")).
    replace (String "<" ("!--" ++ data ++ "-->"))
      with (String "<" ("!--" ++ data ++ "--") ++ ">")
      by StrFacts.reassociate.
    apply HeFacts.clean_gt.
Qed.

Lemma html_nodes_clean ns : He.clean tb (String.concat "" (map (html_node false) ns)).
Proof.
  induction ns as [|n ns IH]; [apply HeFacts.clean_nil|].
  rewrite map_cons, concat_cons. apply HeFacts.clean_app; [apply html_node_clean | exact IH].
Qed.

(** The data of a text node that is serialized as text (its parent is not a
    raw-text element, and no ancestor is a void element) stands as it is in
    the decoded serialization. *)
Lemma text_survives t r0 r n ns :
  occurs is_void r0 r n ns -> r = false -> n = Text t ->
  exists pre post,
    He.decode tb (String.concat "" (map (html_node r0) ns)) = pre ++ t ++ post.
Proof.
  induction 1 as [r n ns Hin | r0 r n ns name attribs children Hin Hv O IH];
    intros -> ->.
  - destruct (html_split (html_node false) _ _ Hin) as (before & after & ->).
    exists (He.decode tb (String.concat "" (map (html_node false) before))),
           (He.decode tb (String.concat "" (map (html_node false) after))).
    rewrite HeFacts.clean_decode_app by apply html_nodes_clean.
    f_equal. cbn [html_node]. unfold He.decode.
    now apply HeFacts.decode_escape.
  - destruct (IH eq_refl eq_refl) as (pre & post & K).
    destruct (html_split (html_node r0) _ _ Hin) as (before & after & ->).
    rewrite (html_element r0 name attribs children Hv).
    remember (String.concat "" (map (html_node (is_raw name)) children)) as kids eqn:Ek.
    remember (String.concat "" (map (html_node r0) before)) as C1 eqn:E1.
    remember (String.concat "" (map (html_node r0) after)) as C2 eqn:E2.
    remember (name ++ html_attrs attribs) as tag eqn:Et.
    clear Ek E1 E2 Et.
    exists (He.decode tb C1 ++ He.decode tb (String "<" tag ++ ">") ++ pre),
           (post ++ He.decode tb (String "<" (("/" ++ name ++ ">") ++ C2))).
    replace (C1 ++ ((("<" ++ tag) ++ ">") ++ kids ++ String "<" ("/" ++ name ++ ">")) ++ C2)
      with (C1 ++ String "<" ((tag ++ ">") ++ kids
                              ++ String "<" (("/" ++ name ++ ">") ++ C2)))
      by StrFacts.reassociate.
    rewrite HeFacts.decode_before_lt.
    replace (String "<" ((tag ++ ">") ++ kids ++ String "<" (("/" ++ name ++ ">") ++ C2)))
      with ((String "<" tag ++ ">") ++ kids ++ String "<" (("/" ++ name ++ ">") ++ C2))
      by StrFacts.reassociate.
    rewrite (HeFacts.clean_decode_app tb (String "<" tag ++ ">")) by apply HeFacts.clean_gt.
    rewrite HeFacts.decode_before_lt, K. StrFacts.reassociate.
Qed.

End Decoding.

End DomFacts.

(* ------------------------------------------------------------------------- *)
(** ** The normalizer and what is stored, current revision *)

Module NormalizerFacts.

Import Effects Sqlite Part000.

Lemma occurs_weaken (b1 b2 : string -> bool) r0 r n ns :
  (forall name, b1 name = false -> b2 name = false) ->
  Dom.occurs b1 r0 r n ns -> Dom.occurs b2 r0 r n ns.
Proof.
  intros W. induction 1 as [r n ns Hin | r0 r n ns name attribs children Hin Hb O IH].
  - now apply Dom.occurs_here.
  - eapply Dom.occurs_below; eauto.
Qed.

Section Facts.

Variable he : He.tables.
Variable load : string -> Dom.document.
Variable iconv_decode : list Byte.byte -> string.
Variable isNetworkOrIdempotentRequestError : Axios.error -> bool.

Local Abbreviation options := (retry_options isNetworkOrIdempotentRequestError).
Local Abbreviation update :=
  (updateLaw he load iconv_decode isNetworkOrIdempotentRequestError).



End Facts.

End NormalizerFacts.

(* ------------------------------------------------------------------------- *)
(** ** The two documents of [scraping-backend/server.js] *)

Module VariantFacts.

Import Effects Sqlite.

Section Facts.

Variable he : He.tables.
Variable load : string -> Dom.document.
Variable text_of : list Byte.byte -> string.

(** First document: one attempt, no wait; a rejection gives null at once. *)
Lemma first_document_single_attempt t url e :
  t 0 = Axios.Rejected e ->
  snd (ServerA.fetchAndParseData he load text_of t url) = None /\
  waits (fst (ServerA.fetchAndParseData he load text_of t url)) = [].
Proof.
  intros E. unfold ServerA.fetchAndParseData, Axios.get_once. rewrite E. now split.
Qed.

(** Second document: what is stored is the serialized tree, not decoded, in
    a new row. *)
Lemma second_document_stores_serialization c ty url st data :
  Part000.attempts c 0 = Axios.Resolved data ->
  ServerB.parseHTML load (text_of data) <> "" ->
  Part000.db (ServerB.updateLaw load text_of c ty url st)
  = insert (Part000.clock c) ty
      (Dom.html (ServerB.cleaned (load (text_of data)))) (Part000.db st).
Proof.
  intros E N. unfold ServerB.updateLaw, ServerB.fetchAndParseData, Axios.get_once.
  rewrite E. simpl. apply String.eqb_neq in N. now rewrite N.
Qed.

(** Second document: the endpoint decodes what it reads. *)
Lemma second_document_decodes_on_read t ty row :
  select_latest ty t = Some row ->
  ServerB.get_laws he t ty
  = Http.mkResponse 200 (Http.Send (He.decode he (content row))).
Proof. unfold ServerB.get_laws. now intros ->. Qed.

End Facts.

End VariantFacts.

(* ------------------------------------------------------------------------- *)
(** * Runs on the test doubles *)

Module Scenarios.

Import Effects Sqlite Part000.

Local Abbreviation fetch :=
  (fetchAndParseData Fixture.he Fixture.load Fixture.bytes_text Fixture.no_network_error).
Local Abbreviation normalize := (parseHTML Fixture.he Fixture.load).
Local Abbreviation update :=
  (updateLaw Fixture.he Fixture.load Fixture.bytes_text Fixture.no_network_error).
Local Abbreviation schedule :=
  (scheduleLawUpdates Fixture.he Fixture.load Fixture.bytes_text Fixture.no_network_error).
Local Abbreviation next :=
  (step Fixture.he Fixture.load Fixture.bytes_text Fixture.no_network_error).
Local Abbreviation loop :=
  (run Fixture.he Fixture.load Fixture.bytes_text Fixture.no_network_error).
Local Abbreviation fetched :=
  (Part000.fetched Fixture.he Fixture.load Fixture.bytes_text Fixture.no_network_error).

Example sample_is_sanitized : normalize Fixture.sample_markup = Fixture.sample_clean.
Proof. vm_compute. reflexivity. Qed.

Example fetch_after_three_resets :
  fetch (Fixture.flaky 3 Fixture.sample_markup) "u"
  = ([ConsoleLog "Falha na requisição. Tentativa de retry #1. Aguardando 2 segundos...";
      Timer 2000;
      ConsoleLog "Falha na requisição. Tentativa de retry #2. Aguardando 4 segundos...";
      Timer 4000;
      ConsoleLog "Falha na requisição. Tentativa de retry #3. Aguardando 6 segundos...";
      Timer 6000],
     Some Fixture.sample_clean).
Proof. vm_compute. reflexivity. Qed.

Example fetch_gives_up_after_four :
  snd (fetch (Fixture.flaky 4 Fixture.sample_markup) "u") = None /\
  waits (fst (fetch (Fixture.flaky 4 Fixture.sample_markup) "u")) = [2000; 4000; 6000].
Proof. split; vm_compute; reflexivity. Qed.

(** A rejection that [retryCondition] refuses is not retried. *)
Example fetch_not_retried :
  fetch (fun _ => Axios.Rejected Fixture.not_found) "u"
  = ([ConsoleError "ERRO FINAL ao buscar dados de u: Request failed with status code 404"],
     None).
Proof. vm_compute. reflexivity. Qed.

(** The second document of server.js keeps the script of the sample page and
    stores [&amp;] as it is written. *)
Example second_document_keeps_script :
  Str.includes "<script>alert(1)</script>"
    (ServerB.parseHTML Fixture.load Fixture.sample_markup) = true /\
  Str.includes "&amp;" (ServerB.parseHTML Fixture.load Fixture.entity_markup) = true.
Proof. split; vm_compute; reflexivity. Qed.

(** The second document of server.js inserts a row at every update: after two
    updates of a type the table has two rows of it. *)
Example second_document_accumulates :
  rows_for "eleitoral" (insert 7 "eleitoral" "c" (insert 3 "eleitoral" "c" []))
  = [mkRow 1 "eleitoral" "c" 3; mkRow 2 "eleitoral" "c" 7].
Proof. reflexivity. Qed.

(** When every write of a history meets a later clock, the last inserted row
    is the one read. *)
Example second_document_reads_last :
  option_map content
    (select_latest "eleitoral" (insert 7 "eleitoral" "c2" (insert 3 "eleitoral" "c1" [])))
  = Some "c2".
Proof. reflexivity. Qed.


(** C8, counterexample.  After the trigger at start a cycle is in progress; a
    second trigger then is not a no-op: it starts a second cycle beside the
    first, and over the run in which the two overlap the table is written 22
    times, two catalogues' worth. *)
Lemma second_trigger_overlaps :
  let s1 := next boot Fire in
  running s1 <> [] /\
  next s1 Fire <> s1 /\
  List.length (running (next s1 Fire)) = 2 /\
  running (loop Fixture.overlap boot) = [] /\
  writes (trace (process (loop Fixture.overlap boot))) = 22.
Proof.
  cbv zeta. split; [discriminate|]. split; [|split; [reflexivity|split]].
  - intros E. apply (f_equal (fun s => List.length (running s))) in E.
    vm_compute in E. discriminate.
  - vm_compute. reflexivity.
  - vm_compute. reflexivity.
Qed.

Lemma freshness_witness :
  unique_law_type [mkRow 1 "advocacia" "v0" 10] /\
  get_laws (upsert 5 "advocacia" "v2" (upsert 20 "advocacia" "v1"
              [mkRow 1 "advocacia" "v0" 10])) "advocacia"
  = Http.mkResponse 200 (Http.Send "v2").
Proof.
  assert (U : unique_law_type [mkRow 1 "advocacia" "v0" 10]).
  { unfold unique_law_type. simpl. repeat constructor. simpl. tauto. }
  split; [exact U|].
  destruct (ServerFacts.freshness
              Fixture.he Fixture.load Fixture.bytes_text Fixture.no_network_error
              [mkRow 1 "advocacia" "v0" 10] U) as [A _].
  apply (A 20%Z 5%Z "advocacia" "v1" "v2").
Defined.

Lemma not_found_contract_witness :
  rows_for "inexistente" [mkRow 1 "advocacia" "v0" 10] = [] /\
  get_laws [mkRow 1 "advocacia" "v0" 10] "inexistente"
  = Http.mkResponse 404 (Http.Json [("error", "Lei não encontrada")]).
Proof.
  split; [reflexivity|].
  destruct (ServerFacts.not_found_contract
              Fixture.he Fixture.load Fixture.bytes_text Fixture.no_network_error
              [mkRow 1 "advocacia" "v0" 10] "inexistente") as [A _].
  apply A. reflexivity.
Defined.



Lemma cycle_resilience_witness :
  unique_law_type (db (mkState [] [])) /\
  fetched (Fixture.one_down 2) (url Fixture.eleitoral) = None /\
  writes (trace (schedule Fixture.one_down (mkState [] []))) = 10 /\
  rows_for (type Fixture.eleitoral) (db (schedule Fixture.one_down (mkState [] []))) = [].
Proof.
  assert (U : unique_law_type (db (mkState [] []))) by constructor.
  assert (F : fetched (Fixture.one_down 2) (url Fixture.eleitoral) = None) by (vm_compute; reflexivity).
  assert (G : forall j law, j <> 2 -> nth_error lawsToUpdate j = Some law ->
                exists text, fetched (Fixture.one_down j) (url law) = Some text /\ text <> "").
  { intros j law J _. exists Fixture.sample_clean. split; [|discriminate].
    unfold Fixture.one_down. destruct (Nat.eqb_spec j 2) as [|_]; [contradiction|].
    vm_compute. reflexivity. }
  pose proof (ServerFacts.cycle_resilience
                Fixture.he Fixture.load Fixture.bytes_text Fixture.no_network_error
                Fixture.one_down (mkState [] []) 2 Fixture.eleitoral U eq_refl F G) as R.
  destruct R as (_ & W & _ & S & _).
  split; [exact U|]. split; [exact F|]. split; [rewrite W | rewrite S]; reflexivity.
Defined.

Lemma stale_entry_kept_witness :
  truthy (fetched (Fixture.one_down 2) (url Fixture.eleitoral)) = false /\
  select_latest (type Fixture.eleitoral) (db (schedule Fixture.one_down Fixture.stale))
  = Some (mkRow 1 "eleitoral" "texto anterior" 5).
Proof.
  assert (F : truthy (fetched (Fixture.one_down 2) (url Fixture.eleitoral)) = false)
    by (vm_compute; reflexivity).
  split; [exact F|].
  destruct (ServerFacts.stale_entry_kept
              Fixture.he Fixture.load Fixture.bytes_text Fixture.no_network_error
              Fixture.one_down Fixture.stale 2 Fixture.eleitoral eq_refl F) as (_ & _ & S & _).
  rewrite S. reflexivity.
Defined.

Lemma stored_content_never_empty_witness :
  Part000.nonempty_contents (db (process boot)) /\
  Part000.nonempty_contents (db (process (loop Fixture.overlap boot))).
Proof.
  assert (N : Part000.nonempty_contents (db (process boot))) by constructor.
  split; [exact N|].
  assert (D : forall ty text, In (DbRun ty text) (trace (process boot)) -> text <> "")
    by (intros ty text []).
  destruct (ServerFacts.stored_content_never_empty
              Fixture.he Fixture.load Fixture.bytes_text Fixture.no_network_error
              Fixture.overlap boot N D) as [S _].
  exact S.
Defined.

End Scenarios.

(* ========================================================================= *)
(** * Rows, timing, trees and revisions *)

(* ------------------------------------------------------------------------- *)
(** ** Rows: what a write touches *)

Module RowFacts.

Import Effects Sqlite Part000.

Lemma id_below_next t r : In r t -> id r < next_id t.
Proof.
  unfold next_id. induction t as [|x t IH]; simpl; [contradiction|].
  intros [->|H]; [lia|]. specialize (IH H). lia.
Qed.

Lemma do_update_keys now ty c t : map key (do_update now ty c t) = map key t.
Proof.
  induction t as [|r t IH]; simpl; [reflexivity|].
  destruct (is_type ty r); simpl; [reflexivity | now rewrite IH].
Qed.

(** An upsert keeps the rowid and the type of every row, in place; it adds at
    most one row, at the end, with a fresh rowid. *)
Lemma upsert_keys now ty c t :
  map key (upsert now ty c t)
  = (map key t ++ if existsb (is_type ty) t then [] else [(next_id t, ty)])%list.
Proof.
  unfold upsert, insert. destruct (existsb (is_type ty) t).
  - now rewrite do_update_keys, app_nil_r.
  - now rewrite map_app.
Qed.

Lemma upsert_ids_distinct now ty c t :
  NoDup (map id t) -> NoDup (map id (upsert now ty c t)).
Proof.
  intros N.
  assert (E : map id (upsert now ty c t) = map fst (map key (upsert now ty c t))).
  { rewrite map_map. reflexivity. }
  rewrite E, upsert_keys, map_app, map_map.
  change (map (fun x => fst (key x)) t) with (map id t).
  destruct (existsb (is_type ty) t); simpl; [now rewrite app_nil_r|].
  apply NoDup_app; [exact N | repeat constructor; simpl; tauto |].
  intros i Hi [<-|[]]. apply in_map_iff in Hi. destruct Hi as (r & Er & Hr).
  pose proof (id_below_next t r Hr). lia.
Qed.

(** The row of a type after an upsert: the old rowid in place when the type
    had a row, a fresh one otherwise; the new content and the clock of the
    write in both cases. *)
Lemma upsert_row now ty c t :
  unique_law_type t ->
  select_latest ty (upsert now ty c t)
  = Some (mkRow (match select_latest ty t with
                 | Some old => id old
                 | None => next_id t
                 end) ty c now).
Proof.
  intros U. unfold select_latest, upsert.
  destruct (existsb (is_type ty) t) eqn:E.
  - assert (R : exists old, rows_for ty t = [old] /\
                            rows_for ty (do_update now ty c t) = [mkRow (id old) ty c now]).
    { clear -U E. unfold unique_law_type in U.
      induction t as [|r t IH]; simpl in *; [discriminate|].
      inversion U as [|x l Hnin U']; subst.
      destruct (is_type ty r) eqn:Er; simpl.
      - pose proof Er as Eq. apply SqliteFacts.is_type_true in Eq.
        exists r. unfold is_type at 1. simpl law_type. rewrite Eq, String.eqb_refl.
        rewrite SqliteFacts.rows_for_none by now rewrite <- Eq.
        split; reflexivity.
      - rewrite Er. simpl in E. destruct (IH U' E) as (old & A & B).
        exists old. now split. }
    destruct R as (old & -> & ->). reflexivity.
  - unfold insert. rewrite SqliteFacts.rows_for_app.
    apply SqliteFacts.rows_for_nil_iff in E. rewrite E. simpl.
    unfold is_type. simpl. now rewrite String.eqb_refl.
Qed.

Section Facts.

Variable he : He.tables.
Variable load : string -> Dom.document.
Variable iconv_decode : list Byte.byte -> string.
Variable isNetworkOrIdempotentRequestError : Axios.error -> bool.

Local Abbreviation update :=
  (updateLaw he load iconv_decode isNetworkOrIdempotentRequestError).
Local Abbreviation schedule :=
  (scheduleLawUpdates he load iconv_decode isNetworkOrIdempotentRequestError).
Local Abbreviation fetched :=
  (Part000.fetched he load iconv_decode isNetworkOrIdempotentRequestError).
Local Abbreviation update_write :=
  (Part000.update_write he load iconv_decode isNetworkOrIdempotentRequestError).
Local Abbreviation cycle_writes :=
  (Part000.cycle_writes he load iconv_decode isNetworkOrIdempotentRequestError).
Local Abbreviation advance :=
  (resume he load iconv_decode isNetworkOrIdempotentRequestError).
Local Abbreviation next :=
  (step he load iconv_decode isNetworkOrIdempotentRequestError).
Local Abbreviation loop :=
  (run he load iconv_decode isNetworkOrIdempotentRequestError).

Lemma update_write_type c ty url w : In w (update_write c ty url) -> w_type w = ty.
Proof.
  unfold Part000.update_write. destruct (fetched c url) as [text|]; [|contradiction].
  destruct (text =? ""); [contradiction|]. now intros [<-|[]].
Qed.

(** What holds between the tables before and after one update holds over a
    run, when it is reflexive and transitive and the invocations in progress
    only update types that [touched] accepts. *)
Lemma over_a_run (R : table -> table -> Prop) (touched : string -> Prop) :
  (forall t, R t t) ->
  (forall a b c, R a b -> R b c -> R a c) ->
  (forall c ty url st, touched ty -> R (db st) (db (update c ty url st))) ->
  (forall law, In law lawsToUpdate -> touched (type law)) ->
  forall ticks s,
    Forall (fun task => forall law, In law task -> touched (type law)) (running s) ->
    R (db (process s)) (db (process (loop ticks s))).
Proof.
  intros Rrefl Rtrans Rupdate Rcat.
  assert (Resume : forall i c st tasks,
             Forall (fun task => forall law, In law task -> touched (type law)) tasks ->
             R (db st) (db (fst (advance i c st tasks))) /\
             Forall (fun task => forall law, In law task -> touched (type law))
               (snd (advance i c st tasks))).
  { intros i c st tasks. revert i.
    induction tasks as [|task others IH]; intros i F; simpl.
    - split; [apply Rrefl | constructor].
    - inversion F as [|x l Ft Fo]; subst. destruct i as [|j].
      + destruct task as [|law rest]; [split; [apply Rrefl | exact Fo]|].
        assert (U : R (db st) (db (update c (type law) (url law) st)))
          by (apply Rupdate, Ft; now left).
        destruct rest as [|law' rest']; simpl; (split; [exact U|]); [exact Fo|].
        constructor; [|exact Fo]. intros l Hl. apply Ft. now right.
      + specialize (IH j Fo). destruct (advance j c st others) as [st' others'].
        simpl in *. destruct IH as [A B]. split; [exact A | now constructor]. }
  induction ticks as [|t ticks IH]; intros s F; unfold run; simpl fold_left.
  - apply Rrefl.
  - assert (S : R (db (process s)) (db (process (next s t))) /\
                Forall (fun task => forall law, In law task -> touched (type law))
                  (running (next s t))).
    { destruct t as [|i c]; unfold step.
      - split; [apply Rrefl|]. cbn [running]. apply Forall_app. split; [exact F|].
        constructor; [exact Rcat | constructor].
      - specialize (Resume i c (process s) (running s) F).
        now destruct (advance i c (process s) (running s)). }
    destruct S as [A B]. eapply Rtrans; [exact A|]. now apply IH.
Qed.

(** X1. A refresh touches the rows of its own type only: one update leaves
    the rows of every other type as they were, and no run of the scheduler,
    whatever its triggers and interleaving, changes the rows of a type that is
    not in the catalogue. *)
Theorem refresh_touches_only_its_type (other : string) :
  (forall c ty url st,
     other <> ty -> rows_for other (db (update c ty url st)) = rows_for other (db st)) /\
  (forall ticks s,
     ~ In other (map type lawsToUpdate) -> from_catalogue (running s) ->
     rows_for other (db (process (loop ticks s))) = rows_for other (db (process s))).
Proof.
  assert (One : forall c ty url st,
             other <> ty ->
             rows_for other (db (update c ty url st)) = rows_for other (db st)).
  { intros c ty url st N. rewrite ServerFacts.update_db.
    apply ServerFacts.rows_for_fold_other.
    intros w Hw. apply update_write_type in Hw. congruence. }
  split; [exact One|].
  intros ticks s Out F.
  apply (over_a_run (fun a b => rows_for other b = rows_for other a)
           (fun ty => other <> ty)).
  - reflexivity.
  - intros a b c Hab Hbc. congruence.
  - intros c ty url st N. now apply One.
  - intros law Hl E. apply Out. rewrite E. now apply in_map.
  - unfold from_catalogue in F. rewrite Forall_forall in *.
    intros task Ht law Hl E. apply Out. rewrite E. apply in_map.
    now apply (F task Ht).
Qed.


(** X3. Rows are never deleted and never change rowid or type: over any
    run the rowid-and-type list of the table only grows at its end, and the
    rowids stay distinct when they were. *)
Theorem rows_stay (ticks : list tick) (s : system) :
  (exists more,
     map key (db (process (loop ticks s))) = (map key (db (process s)) ++ more)%list) /\
  (NoDup (map id (db (process s))) -> NoDup (map id (db (process (loop ticks s))))).
Proof.
  assert (Any : Forall (fun task : list law => forall l, In l task -> True) (running s))
    by (apply Forall_forall; intros; exact I).
  split.
  - apply (over_a_run (fun a b => exists more, map key b = (map key a ++ more)%list)
             (fun _ => True)); trivial.
    + intros t. exists []. now rewrite app_nil_r.
    + intros a b c [m1 H1] [m2 H2]. exists (m1 ++ m2)%list.
      now rewrite H2, H1, app_assoc.
    + intros c ty url st _. rewrite ServerFacts.update_db.
      unfold Part000.update_write. destruct (fetched c url) as [text|].
      * destruct (text =? ""); simpl.
        -- exists []. now rewrite app_nil_r.
        -- unfold apply_upsert. simpl. rewrite upsert_keys. eexists. reflexivity.
      * exists []. simpl. now rewrite app_nil_r.
  - apply (over_a_run (fun a b => NoDup (map id a) -> NoDup (map id b))
             (fun _ => True)); trivial.
    + intros a b c Hab Hbc H. auto.
    + intros c ty url st _ N. rewrite ServerFacts.update_db.
      unfold Part000.update_write. destruct (fetched c url) as [text|]; [|exact N].
      destruct (text =? ""); simpl; [exact N|].
      unfold apply_upsert. simpl. now apply upsert_ids_distinct.
Qed.

(** ** The first cycle and the later ones *)

Lemma next_id_seq t n : map id t = seq 1 n -> next_id t = S n.
Proof.
  unfold next_id. intros ->. f_equal.
  assert (G : forall k m, fold_right Nat.max 0 (seq (S k) m)
                          = if (m =? 0)%nat then 0 else k + m).
  { intros k m. revert k. induction m as [|m IH]; intros k; [reflexivity|].
    simpl seq. simpl fold_right. rewrite IH.
    destruct m; simpl; lia. }
  rewrite G. destruct n; simpl; lia.
Qed.

(** Writes of types the table does not have, each type once: one new row per
    write, in order, with the next rowids. *)
Lemma fill_fresh ws t n :
  map id t = seq 1 n ->
  NoDup (map w_type ws) ->
  (forall w, In w ws -> ~ In (w_type w) (map law_type t)) ->
  fold_left apply_upsert ws t = (t ++ fresh_rows (S n) ws)%list.
Proof.
  revert t n. induction ws as [|w ws IH]; intros t n Ids N Out; simpl.
  - now rewrite app_nil_r.
  - inversion N as [|x l Hnin N']; subst.
    assert (E : existsb (is_type (w_type w)) t = false).
    { destruct (existsb (is_type (w_type w)) t) eqn:E; [|reflexivity].
      apply SqliteFacts.existsb_is_type in E. exfalso. apply (Out w); [now left | exact E]. }
    unfold apply_upsert at 2. unfold upsert. rewrite E. unfold insert.
    rewrite (next_id_seq t n Ids).
    rewrite (IH _ (S n)).
    + rewrite <- app_assoc. reflexivity.
    + rewrite seq_S, map_app, Ids. reflexivity.
    + exact N'.
    + intros w' Hw' Hin. rewrite map_app in Hin. apply in_app_or in Hin.
      destruct Hin as [Hin|[Hin|[]]].
      * apply (Out w'); [now right | exact Hin].
      * simpl in Hin. apply Hnin. rewrite Hin. now apply in_map.
Qed.

Lemma fresh_rows_nth k ws i w :
  nth_error ws i = Some w ->
  nth_error (fresh_rows k ws) i = Some (mkRow (k + i) (w_type w) (w_content w) (w_now w)).
Proof.
  revert k i. induction ws as [|x ws IH]; intros k i H; [destruct i; discriminate|].
  destruct i as [|i]; simpl in *.
  - injection H as ->. now rewrite Nat.add_0_r.
  - rewrite (IH (S k) i H). f_equal. f_equal. lia.
Qed.

Lemma fresh_rows_keys k ws :
  map key (fresh_rows k ws) = combine (seq k (List.length ws)) (map w_type ws).
Proof.
  revert k. induction ws as [|w ws IH]; intros k; simpl; [reflexivity|].
  now rewrite IH.
Qed.

(** When every fetch of a pass brings content, the pass writes once per
    entry, in order. *)
Lemma cycle_writes_all calls i laws :
  (forall j law, nth_error laws j = Some law ->
     truthy (fetched (calls (i + j)) (url law)) = true) ->
  map w_type (cycle_writes calls i laws) = map type laws /\
  forall j law, nth_error laws j = Some law ->
    exists text,
      fetched (calls (i + j)) (url law) = Some text /\
      nth_error (cycle_writes calls i laws) j
      = Some (mkWrite (clock (calls (i + j))) (type law) text).
Proof.
  revert i. induction laws as [|l rest IH]; intros i H.
  - split; [reflexivity|]. intros [|j] law E; discriminate.
  - assert (H0 := H 0 l eq_refl). rewrite Nat.add_0_r in H0.
    assert (W : exists text, fetched (calls i) (url l) = Some text /\
                             update_write (calls i) (type l) (url l)
                             = [mkWrite (clock (calls i)) (type l) text]).
    { unfold Part000.update_write. unfold truthy in H0.
      destruct (fetched (calls i) (url l)) as [text|]; [|discriminate].
      exists text. split; [reflexivity|]. now destruct (text =? ""). }
    destruct W as (text & F & W).
    destruct (IH (S i)) as [T N].
    { intros j law E. specialize (H (S j) law E).
      now replace (S i + j) with (i + S j) by lia. }
    simpl. rewrite W. simpl. split; [now rewrite T|].
    intros [|j] law E; simpl in E.
    + injection E as <-. rewrite Nat.add_0_r. exists text. now split.
    + destruct (N j law E) as (text' & F' & N').
      replace (i + S j) with (S i + j) by lia. exists text'. now split.
Qed.

(** Writes of types the table has add no row and change no rowid. *)
Lemma refill_keys ws t :
  (forall w, In w ws -> In (w_type w) (map law_type t)) ->
  map key (fold_left apply_upsert ws t) = map key t.
Proof.
  revert t. induction ws as [|w ws IH]; intros t H; simpl; [reflexivity|].
  assert (E : existsb (is_type (w_type w)) t = true)
    by (apply SqliteFacts.existsb_is_type, H; now left).
  assert (K : map key (apply_upsert t w) = map key t).
  { unfold apply_upsert. rewrite upsert_keys, E. apply app_nil_r. }
  rewrite IH; [exact K|].
  intros w' Hw'.
  assert (T : map law_type (apply_upsert t w) = map law_type t).
  { transitivity (map snd (map key (apply_upsert t w))); [now rewrite map_map|].
    rewrite K. now rewrite map_map. }
  rewrite T. apply H. now right.
Qed.

(** X4. The first cycle on an empty table, when every fetch brings content,
    leaves one row per catalogue entry, in catalogue order, with rowids 1 to
    11, each holding the text fetched for its entry and the clock of its
    write; every later cycle, whatever its fetches bring, leaves the rowids
    and types of that table as they are. *)
Theorem first_cycle_fills_table (calls : nat -> call) (tr : list event) :
  (forall i law, nth_error lawsToUpdate i = Some law ->
     truthy (fetched (calls i) (url law)) = true) ->
  let t := db (schedule calls (mkState [] tr)) in
  map key t = combine (seq 1 11) (map type lawsToUpdate) /\
  (forall i law, nth_error lawsToUpdate i = Some law ->
     exists text,
       fetched (calls i) (url law) = Some text /\
       nth_error t i = Some (mkRow (S i) (type law) text (clock (calls i)))) /\
  (forall calls' tr', map key (db (schedule calls' (mkState t tr'))) = map key t).
Proof.
  intros H t.
  destruct (cycle_writes_all calls 0 lawsToUpdate H) as [T N].
  assert (E : t = fresh_rows 1 (cycle_writes calls 0 lawsToUpdate)).
  { subst t. rewrite ServerFacts.schedule_db. simpl db.
    rewrite (fill_fresh _ [] 0); [reflexivity | reflexivity | | intros w _ []].
    rewrite T. apply ServerFacts.catalogue_types_distinct. }
  assert (K : map key t = combine (seq 1 11) (map type lawsToUpdate)).
  { rewrite E, fresh_rows_keys, T.
    replace (List.length (cycle_writes calls 0 lawsToUpdate)) with 11; [reflexivity|].
    rewrite <- (length_map w_type), T. reflexivity. }
  split; [exact K|]. split.
  - intros i law L. destruct (N i law L) as (text & F & W).
    exists text. split; [exact F|]. rewrite E.
    now rewrite (fresh_rows_nth 1 _ i _ W).
  - intros calls' tr'. rewrite ServerFacts.schedule_db. simpl db.
    apply refill_keys. intros w Hw.
    apply ServerFacts.cycle_writes_types in Hw.
    replace (map law_type t) with (map type lawsToUpdate); [exact Hw|].
    transitivity (map snd (map key t)); [|now rewrite map_map].
    rewrite K. reflexivity.
Qed.

End Facts.

End RowFacts.

(* ------------------------------------------------------------------------- *)
(** ** Attempts and waiting *)

Module TimingFacts.

Import Effects Sqlite Part000.

Lemma total_wait_app (a b : list event) :
  total_wait (a ++ b)%list = total_wait a + total_wait b.
Proof. unfold total_wait. now rewrite AxiosFacts.waits_app, list_sum_app. Qed.

Lemma sum_of_delays l : list_sum (map (fun n => n * 2000) l) = 2000 * list_sum l.
Proof. induction l as [|n l IH]; simpl; [reflexivity | rewrite IH; lia]. Qed.

Section Facts.

Variable he : He.tables.
Variable load : string -> Dom.document.
Variable iconv_decode : list Byte.byte -> string.
Variable isNetworkOrIdempotentRequestError : Axios.error -> bool.

Local Abbreviation options := (retry_options isNetworkOrIdempotentRequestError).
Local Abbreviation fetch :=
  (fetchAndParseData he load iconv_decode isNetworkOrIdempotentRequestError).
Local Abbreviation update :=
  (updateLaw he load iconv_decode isNetworkOrIdempotentRequestError).
Local Abbreviation schedule :=
  (scheduleLawUpdates he load iconv_decode isNetworkOrIdempotentRequestError).
Local Abbreviation pass :=
  (for_of he load iconv_decode isNetworkOrIdempotentRequestError).
Local Abbreviation update_events :=
  (Part000.update_events he load iconv_decode isNetworkOrIdempotentRequestError).

(** What one update waits: 2000 ms times the sum of the numbers of the
    retries it made, which is at most 1 + 2 + 3. *)
Lemma update_wait c ty url :
  exists r,
    total_wait (update_events c ty url) = 2000 * r /\ r <= 6 /\
    (forall data, attempts c 0 = Axios.Resolved data -> r = 0).
Proof.
  pose proof (AxiosFacts.attempts_made_bounds options 3 0 (attempts c)) as B.
  exists (list_sum (seq 1 (Axios.attempts_made options 3 0 (attempts c) - 1))).
  split; [|split].
  - unfold Part000.update_events. rewrite total_wait_app.
    assert (T : total_wait
                  match Part000.fetched he load iconv_decode
                          isNetworkOrIdempotentRequestError c url with
                  | Some text =>
                      if text =? "" then
                        [ConsoleLog ("❌ Falha ao obter conteúdo para " ++ ty
                                     ++ " após todas as tentativas.")]
                      else
                        [DbRun ty text;
                         ConsoleLog ("✅ Lei " ++ ty ++ " atualizada no banco de dados.")]
                  | None =>
                      [ConsoleLog ("❌ Falha ao obter conteúdo para " ++ ty
                                   ++ " após todas as tentativas.")]
                  end = 0).
    { destruct (Part000.fetched he load iconv_decode
                  isNetworkOrIdempotentRequestError c url) as [text|]; [|reflexivity].
      now destruct (text =? ""). }
    rewrite T, Nat.add_0_r.
    change (total_wait (ConsoleLog ("Buscando " ++ ty ++ "...") :: fst (fetch (attempts c) url)))
      with (list_sum (waits (fst (fetch (attempts c) url)))).
    rewrite ServerFacts.fetch_waits. apply sum_of_delays.
  - destruct (Axios.attempts_made options 3 0 (attempts c)) as [|[|[|[|[|m]]]]];
      simpl; lia.
  - intros data E. simpl. now rewrite E.
Qed.

Lemma pass_wait calls i laws st :
  exists evs k,
    trace (pass calls i laws st) = (trace st ++ evs)%list /\
    total_wait evs = 2000 * k /\
    List.length laws <= k <= 7 * List.length laws /\
    ((forall j law, nth_error laws j = Some law ->
        exists data, attempts (calls (i + j)) 0 = Axios.Resolved data) ->
     k = List.length laws).
Proof.
  revert i st. induction laws as [|law rest IH]; intros i st; simpl.
  - exists [], 0. rewrite app_nil_r. repeat split; auto.
  - destruct (IH (S i)
      (emit [ConsoleLog "...pausa de 2 segundos..."; Timer 2000]
         (update (calls i) (type law) (url law) st))) as (evs & k & T & W & B & Q).
    destruct (update_wait (calls i) (type law) (url law)) as (r & Wr & Br & Qr).
    exists (update_events (calls i) (type law) (url law)
            ++ [ConsoleLog "...pausa de 2 segundos..."; Timer 2000] ++ evs)%list,
           (r + 1 + k).
    split; [|split; [|split]].
    + rewrite T, ServerFacts.trace_emit, ServerFacts.update_trace, <- !app_assoc.
      reflexivity.
    + rewrite !total_wait_app, Wr, W.
      change (total_wait [ConsoleLog "...pausa de 2 segundos..."; Timer 2000])
        with (2000 + 0). lia.
    + lia.
    + intros H.
      destruct (H 0 law eq_refl) as [data E]. rewrite Nat.add_0_r in E.
      rewrite (Qr data E), Q; [lia|].
      intros j l N. destruct (H (S j) l N) as [d E'].
      exists d. now replace (S i + j) with (i + S j) by lia.
Qed.

(** X5. The time one cycle spends on timers is a multiple of 2 s: between
    11 times 2 s (the pause after each of the eleven entries, failed ones and
    the last one included) and 77 times 2 s (with the retry waits of 2, 4
    and 6 s for every entry); it is 22 s exactly when every first attempt is
    answered. *)
Theorem cycle_wait_bounds (calls : nat -> call) (st : state) :
  exists evs k,
    trace (schedule calls st) = (trace st ++ evs)%list /\
    total_wait evs = 2000 * k /\
    11 <= k <= 77 /\
    ((forall i law, nth_error lawsToUpdate i = Some law ->
        exists data, attempts (calls i) 0 = Axios.Resolved data) ->
     k = 11).
Proof.
  unfold scheduleLawUpdates.
  destruct (pass_wait calls 0 lawsToUpdate
              (emit [ConsoleLog "Iniciando rotina de atualização de leis..."] st))
    as (evs & k & T & W & B & Q).
  change (List.length lawsToUpdate) with 11 in *.
  exists ((ConsoleLog "Iniciando rotina de atualização de leis..." :: evs)
          ++ [ConsoleLog "--- Rotina de atualização concluída. Próxima em 24 horas. ---"])%list,
         k.
  split; [|split; [|split]].
  - rewrite ServerFacts.trace_emit, T, ServerFacts.trace_emit, <- !app_assoc. reflexivity.
  - rewrite total_wait_app.
    change (total_wait (ConsoleLog "Iniciando rotina de atualização de leis..." :: evs))
      with (total_wait evs).
    change (total_wait [ConsoleLog "--- Rotina de atualização concluída. Próxima em 24 horas. ---"])
      with 0.
    lia.
  - lia.
  - exact Q.
Qed.

(** X6. A fetch whose first attempt is answered prints nothing and waits for
    nothing; a fetch whose first attempt is rejected with an error that is
    neither a network or idempotent-request error nor an ECONNRESET is not
    retried: it waits for nothing, prints the final-error line once and gives
    null. *)
Theorem fetch_single_attempt (t : Axios.transport) (url : string) :
  (forall data,
     t 0 = Axios.Resolved data ->
     fetch t url = ([], Some (parseHTML he load (iconv_decode data)))) /\
  (forall e,
     t 0 = Axios.Rejected e ->
     isNetworkOrIdempotentRequestError e = false ->
     Axios.code e <> Some "ECONNRESET" ->
     fetch t url
     = ([ConsoleError ("ERRO FINAL ao buscar dados de " ++ url ++ ": " ++ Axios.message e)],
        None)).
Proof.
  split.
  - intros data E. unfold fetchAndParseData, Axios.get. simpl. now rewrite E.
  - intros e E N C. unfold fetchAndParseData, Axios.get. simpl. rewrite E, N. simpl.
    destruct (Axios.code e) as [c|]; [|reflexivity].
    destruct (String.eqb_spec c "ECONNRESET") as [->|_]; [now elim C | reflexivity].
Qed.

End Facts.

End TimingFacts.

(* ------------------------------------------------------------------------- *)
(** ** The cleaned tree and its text *)

Module TreeFacts.

Import Dom.

Lemma flat_map_same_on {A B} (f g : A -> list B) (l : list A) :
  Forall (fun a => f a = g a) l -> flat_map f l = flat_map g l.
Proof. induction 1 as [|a l Ha Hl IH]; simpl; [reflexivity | now rewrite Ha, IH]. Qed.

Lemma map_same_on {A B} (f g : A -> B) (l : list A) :
  Forall (fun a => f a = g a) l -> map f l = map g l.
Proof. induction 1 as [|a l Ha Hl IH]; simpl; [reflexivity | now rewrite Ha, IH]. Qed.

Lemma existsb_false_all {A} (p : A -> bool) (l : list A) :
  existsb p l = false -> Forall (fun a => p a = false) l.
Proof.
  induction l as [|a l IH]; simpl; [constructor|].
  intros H. apply orb_false_elim in H. destruct H as [Ha Hl].
  constructor; [exact Ha | now apply IH].
Qed.

(** Selecting more tags removes nothing more from a tree that has no
    element with those tags. *)
Lemma remove_more sel extra d :
  (forall x, In x extra -> has_element x d = false) ->
  remove (sel ++ extra) d = remove sel d.
Proof.
  intros H. unfold remove. apply flat_map_same_on. apply Forall_forall.
  intros n Hn.
  assert (Hn' : forall x, In x extra -> has_element_node x n = false).
  { intros x Hx. specialize (H x Hx). unfold has_element in H.
    apply existsb_false_all in H. rewrite Forall_forall in H. now apply H. }
  clear H Hn. revert Hn'.
  induction n as [name attribs children IH | data | data] using node_induction;
    intros H; simpl; try reflexivity.
  assert (E : existsb (String.eqb name) extra = false).
  { apply DomFacts.existsb_false_on. apply Forall_forall. intros x Hx.
    specialize (H x Hx). simpl in H. now apply orb_false_elim in H. }
  rewrite existsb_app, E, orb_false_r.
  destruct (existsb (String.eqb name) sel); [reflexivity|].
  f_equal. f_equal. apply flat_map_same_on.
  rewrite Forall_forall in *. intros c Hc. apply (IH c Hc).
  intros x Hx. specialize (H x Hx). simpl in H. apply orb_false_elim in H.
  destruct H as [_ H]. apply existsb_false_all in H.
  rewrite Forall_forall in H. now apply H.
Qed.

Lemma remove_again sel d : remove sel (remove sel d) = remove sel d.
Proof.
  unfold remove.
  assert (N : forall n, flat_map (remove_node sel) (remove_node sel n) = remove_node sel n).
  { induction n as [name attribs children IH | data | data] using node_induction;
      simpl; try reflexivity.
    destruct (existsb (String.eqb name) sel) eqn:E; [reflexivity|].
    simpl. rewrite E, app_nil_r. f_equal. f_equal.
    induction IH as [|c cs Hc Hcs IHcs]; simpl; [reflexivity|].
    now rewrite flat_map_app, Hc, IHcs. }
  induction d as [|n d IH]; simpl; [reflexivity|].
  now rewrite flat_map_app, N, IH.
Qed.

Lemma removeAttr_again tag attr d :
  removeAttr tag attr (removeAttr tag attr d) = removeAttr tag attr d.
Proof.
  unfold removeAttr. rewrite map_map. apply map_same_on. apply Forall_forall.
  intros n _.
  induction n as [name attribs children IH | data | data] using node_induction;
    simpl; try reflexivity.
  f_equal.
  - destruct (name =? tag); [|reflexivity].
    unfold drop_attr. induction attribs as [|kv attribs IHa]; simpl; [reflexivity|].
    destruct (negb (fst kv =? attr)) eqn:E; simpl; [now rewrite E, IHa | exact IHa].
  - rewrite map_map. now apply map_same_on.
Qed.

Lemma remove_removeAttr sel tag attr d :
  remove sel (removeAttr tag attr d) = removeAttr tag attr (remove sel d).
Proof.
  unfold remove, removeAttr.
  assert (N : forall n, remove_node sel (removeAttr_node tag attr n)
                        = map (removeAttr_node tag attr) (remove_node sel n)).
  { induction n as [name attribs children IH | data | data] using node_induction;
      simpl; try reflexivity.
    destruct (existsb (String.eqb name) sel); [reflexivity|].
    simpl. f_equal. f_equal.
    induction IH as [|c cs Hc Hcs IHcs]; simpl; [reflexivity|].
    now rewrite map_app, Hc, IHcs. }
  induction d as [|n d IH]; simpl; [reflexivity|].
  now rewrite map_app, N, IH.
Qed.

(** X12. Cleaning a cleaned tree changes nothing, and the order of the two
    mutations of [parseHTML] does not matter: removing the elements after the
    [href] attributes gives the same tree. *)
Theorem cleaning_is_idempotent (d : document) :
  Part000.cleaned (Part000.cleaned d) = Part000.cleaned d /\
  remove ["img"; "script"; "style"; "link"] (removeAttr "a" "href" d) = Part000.cleaned d.
Proof.
  unfold Part000.cleaned. split; [|apply remove_removeAttr].
  now rewrite remove_removeAttr, removeAttr_again, remove_again.
Qed.

Section Facts.

Variable he : He.tables.
Variable load : string -> Dom.document.

(** X10. Only the [href] of [a] elements is taken away: an element that is
    not inside a removed element stays where it is with all its attributes,
    except an [a] element, which loses its [href] attributes and keeps every
    other attribute. *)
Theorem only_anchor_href_removed
  (html : string) (r : bool) (name : string) (attribs : list (string * string))
  (children : list node) :
  occurs Part000.removed false r (Element name attribs children) (load html) ->
  Part000.removed name = false ->
  occurs Part000.removed false r
    (Element name (if name =? "a" then drop_attr "href" attribs else attribs)
       (Part000.cleaned children))
    (Part000.cleaned (load html)) /\
  (forall k v, In (k, v) attribs -> k <> "href" -> In (k, v) (drop_attr "href" attribs)).
Proof.
  intros O N. split.
  - apply (DomFacts.occurs_kept ["img"; "script"; "style"; "link"] "a" "href"
             Part000.removed false r _ _ (fun nm H => H) O).
    exact N.
  - intros k v Hin K. unfold drop_attr. apply filter_In. split; [exact Hin|].
    simpl. apply String.eqb_neq in K. now rewrite K.
Qed.

(** ** The output, read as text *)

Lemma no_amp_cons c a :
  Str.includes "&" (String c a) = false ->
  (c =? "&")%char = false /\ Str.includes "&" a = false.
Proof.
  rewrite StrFacts.includes_unfold. cbn [String.prefix].
  destruct (Ascii.ascii_dec "&" c) as [<-|N]; [now destruct a|].
  intros H. split; [|exact H].
  apply Ascii.eqb_neq. congruence.
Qed.

(** Text without [&] is passed over. *)
Lemma scan_plain a r :
  Str.includes "&" a = false -> He.scan he None (a ++ r) = a ++ He.scan he None r.
Proof.
  induction a as [|c a IH]; intros H; [reflexivity|].
  apply no_amp_cons in H. destruct H as [C A].
  cbn [append He.scan]. rewrite C. now rewrite IH.
Qed.

Hypothesis known : He.knows_escapes he.

Lemma attrs_literal attribs r :
  forallb (fun kv => negb (Str.includes "&" (fst kv))) attribs = true ->
  He.scan he None (html_attrs attribs ++ r)
  = String.concat "" (map literal_attr attribs) ++ He.scan he None r.
Proof.
  unfold html_attrs. induction attribs as [|kv attribs IH]; intros H; [reflexivity|].
  simpl in H. apply andb_prop in H. destruct H as [Hk H].
  apply negb_true_iff in Hk.
  rewrite !map_cons, !DomFacts.concat_cons. unfold html_attr, literal_attr.
  rewrite !StrFacts.append_assoc.
  rewrite (scan_plain " ") by reflexivity.
  rewrite (scan_plain (fst kv)) by exact Hk.
  rewrite (scan_plain "=") by reflexivity.
  rewrite (scan_plain dquote) by reflexivity.
  rewrite (HeFacts.decode_escape he true (snd kv)) by exact known.
  rewrite (scan_plain dquote) by reflexivity.
  specialize (IH H). unfold html_attr, literal_attr in IH. now rewrite IH.
Qed.

Lemma node_literal n :
  forall raw r,
    amp_free raw n = true ->
    He.scan he None (html_node raw n ++ r) = literal_node n ++ He.scan he None r.
Proof.
  induction n as [name attribs children IH | data | data] using node_induction;
    intros raw r H.
  - cbn [amp_free] in H. apply andb_prop in H. destruct H as [H Hc].
    apply andb_prop in H. destruct H as [Hn Ha]. apply negb_true_iff in Hn.
    assert (Kids : forall rest,
               He.scan he None
                 (String.concat "" (map (html_node (is_raw name)) children) ++ rest)
               = String.concat "" (map literal_node children) ++ He.scan he None rest).
    { intros rest. clear Hn Ha.
      induction IH as [|c cs Hc' Hcs IHcs]; [reflexivity|].
      simpl in Hc. apply andb_prop in Hc. destruct Hc as [Hc1 Hc2].
      rewrite !map_cons, !DomFacts.concat_cons, !StrFacts.append_assoc.
      rewrite Hc' by exact Hc1. now rewrite IHcs. }
    cbn [html_node literal_node].
    rewrite !StrFacts.append_assoc.
    rewrite (scan_plain "<") by reflexivity.
    rewrite (scan_plain name) by exact Hn.
    rewrite attrs_literal by exact Ha.
    rewrite (scan_plain ">") by reflexivity.
    destruct (is_void name).
    + reflexivity.
    + rewrite !StrFacts.append_assoc. rewrite Kids.
      rewrite (scan_plain "</") by reflexivity.
      rewrite (scan_plain name) by exact Hn.
      rewrite (scan_plain ">") by reflexivity.
      reflexivity.
  - cbn [html_node literal_node amp_free] in *. destruct raw.
    + apply negb_true_iff in H. now apply scan_plain.
    + now apply HeFacts.decode_escape.
  - cbn [html_node literal_node amp_free] in *. apply negb_true_iff in H.
    rewrite !StrFacts.append_assoc.
    rewrite (scan_plain "<!--") by reflexivity.
    rewrite (scan_plain data) by exact H.
    rewrite (scan_plain "-->") by reflexivity.
    reflexivity.
Qed.


End Facts.

End TreeFacts.

(* ------------------------------------------------------------------------- *)
(** ** The documents of [scraping-backend/server.js] beside the current
    revision *)

Module RevisionFacts.

Import Effects Sqlite.

Section Facts.

Variable he : He.tables.
Variable load : string -> Dom.document.
(** Bytes to text, the same for the revisions that are compared. *)
Variable text_of : list Byte.byte -> string.
Variable isNetworkOrIdempotentRequestError : Axios.error -> bool.

Lemma first_document_cleans_alike d :
  Dom.has_element "link" d = false -> ServerA.cleaned d = Part000.cleaned d.
Proof.
  intros H. unfold ServerA.cleaned, Part000.cleaned. f_equal. symmetry.
  apply (TreeFacts.remove_more ["img"; "script"; "style"] ["link"]).
  now intros x [<-|[]].
Qed.

Lemma second_document_cleans_alike d :
  (forall x, In x ["script"; "style"; "link"] -> Dom.has_element x d = false) ->
  ServerB.cleaned d = Part000.cleaned d.
Proof.
  intros H. unfold ServerB.cleaned, Part000.cleaned. f_equal. symmetry.
  now apply (TreeFacts.remove_more ["img"] ["script"; "style"; "link"]).
Qed.

(** X7. On a page without [link] elements the normalizer of the first
    document of server.js gives the text the current revision gives. *)
Theorem first_document_agrees_without_link (html : string) :
  Dom.has_element "link" (load html) = false ->
  ServerA.parseHTML he load html = Part000.parseHTML he load html.
Proof.
  intros H. unfold ServerA.parseHTML, Part000.parseHTML.
  now rewrite first_document_cleans_alike.
Qed.

Lemma current_update_answered c ty url st data :
  Part000.attempts c 0 = Axios.Resolved data ->
  Part000.db (Part000.updateLaw he load text_of isNetworkOrIdempotentRequestError c ty url st)
  = if Part000.parseHTML he load (text_of data) =? "" then Part000.db st
    else upsert (Part000.clock c) ty (Part000.parseHTML he load (text_of data))
           (Part000.db st).
Proof.
  intros E.
  destruct (ServerFacts.fetch_resolved he load text_of isNetworkOrIdempotentRequestError
              (Part000.attempts c) url 0 data (Nat.le_0_l 3)) as [_ F].
  { intros n Hn. lia. }
  { exact E. }
  rewrite ServerFacts.update_db. unfold Part000.update_write, Part000.fetched.
  rewrite F. now destruct (Part000.parseHTML he load (text_of data) =? "").
Qed.

Lemma first_document_update_answered c ty url st data :
  Part000.attempts c 0 = Axios.Resolved data ->
  Part000.db (ServerA.updateLaw he load text_of c ty url st)
  = if ServerA.parseHTML he load (text_of data) =? "" then Part000.db st
    else upsert (Part000.clock c) ty (ServerA.parseHTML he load (text_of data))
           (Part000.db st).
Proof.
  intros E. unfold ServerA.updateLaw, ServerA.fetchAndParseData, Axios.get_once.
  rewrite E. simpl. now destruct (ServerA.parseHTML he load (text_of data) =? "").
Qed.

Lemma first_document_pass_agrees calls laws :
  forall i stA stP,
    Part000.db stA = Part000.db stP ->
    (forall j law, nth_error laws j = Some law ->
       exists data, Part000.attempts (calls (i + j)) 0 = Axios.Resolved data /\
                    Dom.has_element "link" (load (text_of data)) = false) ->
    Part000.db (ServerA.for_of he load text_of calls i laws stA)
    = Part000.db (Part000.for_of he load text_of isNetworkOrIdempotentRequestError
                    calls i laws stP).
Proof.
  induction laws as [|law rest IH]; intros i stA stP D H; simpl; [exact D|].
  destruct (H 0 law eq_refl) as (data & E & L). rewrite Nat.add_0_r in E.
  apply IH.
  - rewrite ServerFacts.db_emit.
    rewrite (first_document_update_answered _ _ _ _ data E).
    rewrite (current_update_answered _ _ _ _ data E).
    unfold ServerA.parseHTML, Part000.parseHTML.
    rewrite (first_document_cleans_alike _ L), D. reflexivity.
  - intros j l N. destruct (H (S j) l N) as (d & E' & L').
    exists d. split; [|exact L']. now replace (S i + j) with (i + S j) by lia.
Qed.

Lemma first_document_never_waits calls laws :
  forall i st,
    waits (Part000.trace (ServerA.for_of he load text_of calls i laws st))
    = waits (Part000.trace st).
Proof.
  induction laws as [|law rest IH]; intros i st; simpl; [reflexivity|].
  rewrite IH. unfold ServerA.updateLaw, ServerA.fetchAndParseData, Axios.get_once.
  destruct (Part000.attempts (calls i) 0) as [data|e]; simpl.
  - destruct (ServerA.parseHTML he load (text_of data) =? ""); simpl;
      rewrite ?AxiosFacts.waits_app; simpl; now rewrite ?app_nil_r.
  - rewrite AxiosFacts.waits_app. simpl. now rewrite app_nil_r.
Qed.


(** X9. An update of the second document of server.js only appends: the
    rows that were in the table stay as they are, at most one row is added,
    of the updated type and with non-empty content; when the fetch is
    answered with a page whose serialization is not empty, the type has one
    row more, holding that serialization and the clock of the write. *)
Theorem second_document_appends (c : Part000.call) (ty url : string) (st : Part000.state) :
  (exists more,
     Part000.db (ServerB.updateLaw load text_of c ty url st) = (Part000.db st ++ more)%list /\
     List.length more <= 1 /\
     Forall (fun r => law_type r = ty /\ content r <> "") more) /\
  (forall data,
     Part000.attempts c 0 = Axios.Resolved data ->
     ServerB.parseHTML load (text_of data) <> "" ->
     rows_for ty (Part000.db (ServerB.updateLaw load text_of c ty url st))
     = (rows_for ty (Part000.db st)
        ++ [mkRow (next_id (Part000.db st)) ty (ServerB.parseHTML load (text_of data))
              (Part000.clock c)])%list).
Proof.
  split.
  - unfold ServerB.updateLaw, ServerB.fetchAndParseData, Axios.get_once.
    destruct (Part000.attempts c 0) as [data|e]; simpl.
    + destruct (String.eqb_spec (ServerB.parseHTML load (text_of data)) "") as [|N]; simpl.
      * exists []. rewrite app_nil_r. repeat split; auto.
      * eexists. split; [reflexivity|]. split; [simpl; lia|].
        constructor; [now split | constructor].
    + exists []. rewrite app_nil_r. repeat split; auto.
  - intros data E N.
    rewrite (VariantFacts.second_document_stores_serialization load text_of c ty url st data E N).
    unfold insert. rewrite SqliteFacts.rows_for_app. f_equal.
    change (rows_for ty [mkRow (next_id (Part000.db st)) ty
                           (Dom.html (ServerB.cleaned (load (text_of data)))) (Part000.clock c)])
      with (if ty =? ty
            then [mkRow (next_id (Part000.db st)) ty
                    (Dom.html (ServerB.cleaned (load (text_of data)))) (Part000.clock c)]
            else []).
    now rewrite String.eqb_refl.
Qed.


(** ** The burst of the second document *)

Lemma second_document_update_db c ty url st :
  exists more,
    Part000.db (ServerB.updateLaw load text_of c ty url st) = (Part000.db st ++ more)%list /\
    map (fun r => (law_type r, content r, last_updated r)) more
    = match snd (ServerB.fetchAndParseData load text_of (Part000.attempts c) url) with
      | Some text => if text =? "" then [] else [(ty, text, Part000.clock c)]
      | None => []
      end.
Proof.
  unfold ServerB.updateLaw.
  destruct (ServerB.fetchAndParseData load text_of (Part000.attempts c) url)
    as [evs [text|]]; simpl.
  - destruct (text =? ""); simpl.
    + exists []. now rewrite app_nil_r.
    + eexists. split; reflexivity.
  - exists []. now rewrite app_nil_r.
Qed.

Lemma catalogue_positions j k a b :
  nth_error Part000.lawsToUpdate j = Some a ->
  nth_error Part000.lawsToUpdate k = Some b ->
  Part000.type a = Part000.type b -> j = k.
Proof.
  intros A B E.
  pose proof ServerFacts.catalogue_types_distinct as N.
  rewrite NoDup_nth_error in N. apply N.
  - rewrite length_map. apply nth_error_Some. congruence.
  - rewrite !nth_error_map, A, B. simpl. now rewrite E.
Qed.

Lemma settle_other calls st j k law :
  nth_error Part000.lawsToUpdate j = Some law -> k <> j ->
  rows_for (Part000.type law) (Part000.db (ServerB.settle load text_of calls st k))
  = rows_for (Part000.type law) (Part000.db st).
Proof.
  intros L N. unfold ServerB.settle.
  destruct (nth_error Part000.lawsToUpdate k) as [other|] eqn:K; [|reflexivity].
  destruct (second_document_update_db (calls k) (Part000.type other) (Part000.url other) st)
    as (more & -> & M).
  rewrite SqliteFacts.rows_for_app.
  assert (E : rows_for (Part000.type law) more = []).
  { apply SqliteFacts.rows_for_none. intros Hin.
    assert (T : In (Part000.type law)
                  (map fst (map fst (map (fun r => (law_type r, content r, last_updated r))
                                       more)))).
    { rewrite !map_map. exact Hin. }
    rewrite M in T.
    destruct (snd (ServerB.fetchAndParseData load text_of
                     (Part000.attempts (calls k)) (Part000.url other))) as [text|];
      [|contradiction].
    destruct (text =? ""); [contradiction|].
    destruct T as [T|[]]. simpl in T.
    apply N. symmetry. now apply (catalogue_positions j k law other). }
  rewrite E. apply app_nil_r.
Qed.

Lemma settle_others calls l st j law :
  nth_error Part000.lawsToUpdate j = Some law -> ~ In j l ->
  rows_for (Part000.type law)
    (Part000.db (fold_left (ServerB.settle load text_of calls) l st))
  = rows_for (Part000.type law) (Part000.db st).
Proof.
  intros L. revert st. induction l as [|k l IH]; intros st N; simpl; [reflexivity|].
  rewrite IH by (intros H; apply N; now right).
  apply (settle_other calls st j k law L). intros ->. apply N. now left.
Qed.

(** X14. The burst of the second document of server.js: all updates are
    started at once and complete in any order.  Whatever that order, when all
    have completed each type of the catalogue has the rows it had, unchanged,
    and after them one new row with the text and the clock of its own fetch
    when that fetch brought content, none otherwise. *)
Theorem second_document_order_independent
  (order : list nat) (calls : nat -> Part000.call) (st : Part000.state)
  (j : nat) (law : Part000.law) :
  Permutation order (seq 0 11) ->
  nth_error Part000.lawsToUpdate j = Some law ->
  map (fun r => (content r, last_updated r))
    (rows_for (Part000.type law)
       (Part000.db (ServerB.scheduleLawUpdates load text_of order calls st)))
  = (map (fun r => (content r, last_updated r)) (rows_for (Part000.type law) (Part000.db st))
     ++ match snd (ServerB.fetchAndParseData load text_of
                     (Part000.attempts (calls j)) (Part000.url law)) with
        | Some text => if text =? "" then [] else [(text, Part000.clock (calls j))]
        | None => []
        end)%list.
Proof.
  intros P L.
  assert (J : In j order).
  { apply (Permutation_in j (Permutation_sym P)). apply in_seq.
    assert (j < List.length Part000.lawsToUpdate) by (apply nth_error_Some; congruence).
    simpl in *. lia. }
  assert (U : NoDup order).
  { apply (Permutation_NoDup (Permutation_sym P)). apply seq_NoDup. }
  apply in_split in J. destruct J as (l1 & l2 & ->).
  apply NoDup_remove_2 in U.
  unfold ServerB.scheduleLawUpdates. rewrite fold_left_app. simpl fold_left.
  rewrite (settle_others calls l2 _ j law L)
    by (intros H; apply U; apply in_or_app; now right).
  unfold ServerB.settle at 1. rewrite L.
  destruct (second_document_update_db (calls j) (Part000.type law) (Part000.url law)
              (fold_left (ServerB.settle load text_of calls) l1 st)) as (more & -> & M).
  rewrite SqliteFacts.rows_for_app, map_app.
  rewrite (settle_others calls l1 st j law L)
    by (intros H; apply U; apply in_or_app; now left).
  f_equal.
  destruct (snd (ServerB.fetchAndParseData load text_of
                   (Part000.attempts (calls j)) (Part000.url law))) as [text|].
  - destruct (text =? "").
    + destruct more; [reflexivity | discriminate].
    + destruct more as [|r [|r' more]]; try discriminate.
      simpl in M. injection M as E1 E2 E3. simpl.
      unfold is_type. rewrite E1, String.eqb_refl. simpl. now rewrite E2, E3.
  - destruct more; [reflexivity | discriminate].
Qed.

End Facts.

End RevisionFacts.

(* ------------------------------------------------------------------------- *)
(** * Further scenarios on the test doubles *)

Module MoreScenarios.

Import Effects Sqlite Part000.

Local Abbreviation update :=
  (updateLaw Fixture.he Fixture.load Fixture.bytes_text Fixture.no_network_error).
Local Abbreviation schedule :=
  (scheduleLawUpdates Fixture.he Fixture.load Fixture.bytes_text Fixture.no_network_error).
Local Abbreviation fetched :=
  (Part000.fetched Fixture.he Fixture.load Fixture.bytes_text Fixture.no_network_error).


(** Every server answers the sample page: the first cycle leaves the eleven
    rows of the catalogue. *)
Lemma first_cycle_fills_table_witness :
  (forall i law, nth_error lawsToUpdate i = Some law ->
     truthy (fetched Fixture.answering (url law)) = true) /\
  map key (db (schedule (fun _ => Fixture.answering) (mkState [] [])))
  = combine (seq 1 11) (map type lawsToUpdate).
Proof.
  assert (H : forall i law, nth_error lawsToUpdate i = Some law ->
                truthy (fetched Fixture.answering (url law)) = true)
    by (intros i law _; vm_compute; reflexivity).
  split; [exact H|].
  pose proof (RowFacts.first_cycle_fills_table
                Fixture.he Fixture.load Fixture.bytes_text Fixture.no_network_error
                (fun _ => Fixture.answering) [] H) as R.
  cbv zeta in R. destruct R as [K _]. exact K.
Defined.

(** The sample page has no [link] element. *)
Lemma first_document_agrees_without_link_witness :
  Dom.has_element "link" (Fixture.load Fixture.sample_markup) = false /\
  ServerA.parseHTML Fixture.he Fixture.load Fixture.sample_markup
  = Part000.parseHTML Fixture.he Fixture.load Fixture.sample_markup.
Proof.
  assert (H : Dom.has_element "link" (Fixture.load Fixture.sample_markup) = false)
    by (vm_compute; reflexivity).
  split; [exact H|].
  exact (RevisionFacts.first_document_agrees_without_link
           Fixture.he Fixture.load Fixture.sample_markup H).
Defined.


(** The anchor of the sample page stays in the body, without its [href]. *)
Lemma only_anchor_href_removed_witness :
  Dom.occurs removed false false
    (Dom.Element "a" [("href", "http://x")] [Dom.Text "text"])
    (Fixture.load Fixture.sample_markup) /\
  Dom.occurs removed false false (Dom.Element "a" [] [Dom.Text "text"])
    (cleaned (Fixture.load Fixture.sample_markup)).
Proof.
  assert (O : Dom.occurs removed false false
                (Dom.Element "a" [("href", "http://x")] [Dom.Text "text"])
                (Fixture.load Fixture.sample_markup)).
  { apply (Dom.occurs_below removed false false _ _ "html" []
             [Dom.Element "head" [] []; Dom.Element "body" [] Fixture.sample_nodes]);
      [now left | reflexivity |].
    apply (Dom.occurs_below removed false false _ _ "body" [] Fixture.sample_nodes);
      [right; now left | reflexivity |].
    apply Dom.occurs_here. simpl. tauto. }
  split; [exact O|].
  destruct (TreeFacts.only_anchor_href_removed Fixture.load Fixture.sample_markup false
              "a" [("href", "http://x")] [Dom.Text "text"] O eq_refl) as [K _].
  exact K.
Defined.


(** The fetches complete in the reverse of the catalogue order: [eleitoral]
    has its one row all the same. *)
Lemma second_document_order_independent_witness :
  Permutation (rev (seq 0 11)) (seq 0 11) /\
  map (fun r => (content r, last_updated r))
    (rows_for (type Fixture.eleitoral)
       (db (ServerB.scheduleLawUpdates Fixture.load Fixture.bytes_text (rev (seq 0 11))
              (fun _ => Fixture.answering) (mkState [] []))))
  = [(ServerB.parseHTML Fixture.load Fixture.sample_markup, 100%Z)].
Proof.
  assert (P : Permutation (rev (seq 0 11)) (seq 0 11))
    by (apply Permutation_sym, Permutation_rev).
  split; [exact P|].
  rewrite (RevisionFacts.second_document_order_independent
             Fixture.load Fixture.bytes_text (rev (seq 0 11)) (fun _ => Fixture.answering)
             (mkState [] []) 2 Fixture.eleitoral P eq_refl).
  vm_compute. reflexivity.
Defined.

End MoreScenarios.
